(** * Brace-to-indentation converter: a shallow embedding of [script.py]

    The script rewrites Python written with curly-brace blocks into
    indentation blocks.  This file embeds its functions
    ([get_protected_positions], [extract_comment_after_brace],
    [is_scoping_open_brace], [is_scoping_close_brace],
    [convert_curly_to_indented] and the driver [main]) and proves the
    properties its specification states about them, and further ones
    read off the code.

    Python values are modelled as follows.
    - a [str] is the list of its code points ([N]); columns index that list;
    - the set of protected [(line, column)] pairs is a [gset (nat * nat)];
    - [indent_level] is an unbounded integer ([Z]);
    - a call that may raise returns a [result];
    - [tokenize.generate_tokens] belongs to Python's standard library, not
      to the script: it is a parameter, described by the tokens it yields
      and the exception, if any, that ends the iteration. *)

From Stdlib Require Import ZArith NArith List Ascii String Lia Bool.
From stdpp Require Import base decidable numbers option list strings gmap
  sets.

Open Scope Z_scope.

(** ** Python strings and the built-ins the script calls *)

Module Py.

Abbreviation char := N (only parsing).
Abbreviation str := (list N) (only parsing).

(** The code point of an ASCII character, and a literal as a [str]. *)
Definition ord (a : ascii) : char := N_of_ascii a.

Definition py (s : string) : str := ord <$> list_ascii_of_string s.

Definition LF : char := 10%N.
Definition CR : char := 13%N.

(** [str.isspace] on one character (Unicode white space), which is what
    [strip], [lstrip] and [rstrip] remove when called without argument. *)
Definition isspace (c : char) : bool :=
  ((9 <=? c) && (c <=? 13) || (28 <=? c) && (c <=? 32)
   || (c =? 133) || (c =? 160) || (c =? 5760)
   || (8192 <=? c) && (c <=? 8202)
   || (c =? 8232) || (c =? 8233) || (c =? 8239) || (c =? 8287)
   || (c =? 12288))%N.

(** The line boundaries of [str.splitlines]. *)
Definition is_linebreak (c : char) : bool :=
  ((10 <=? c) && (c <=? 13) || (28 <=? c) && (c <=? 30)
   || (c =? 133) || (c =? 8232) || (c =? 8233))%N.

(** Truth value of a string: non-empty. *)
Definition truthy (s : str) : bool :=
  match s with [] => false | _ :: _ => true end.

Definition truthy_list {A} (l : list A) : bool :=
  match l with [] => false | _ :: _ => true end.

Fixpoint lstrip (s : str) : str :=
  match s with
  | [] => []
  | c :: s' => if isspace c then lstrip s' else s
  end.

Definition rstrip (s : str) : str := rev (lstrip (rev s)).

Definition strip (s : str) : str := lstrip (rstrip s).

Fixpoint startswith (s prefix : str) {struct prefix} : bool :=
  match prefix, s with
  | [], _ => true
  | p :: prefix', c :: s' => (c =? p)%N && startswith s' prefix'
  | _ :: _, [] => false
  end.

Definition endswith (s suffix : str) : bool :=
  startswith (rev s) (rev suffix).

(** [s.find(c)] for a single character: the first index, if any. *)
Fixpoint find (c : char) (s : str) : option nat :=
  match s with
  | [] => None
  | x :: s' => if (x =? c)%N then Some 0%nat else S <$> find c s'
  end.

(** [s.rfind(c)]: the last index, if any. *)
Definition rfind (c : char) (s : str) : option nat :=
  (fun k => (length s - 1 - k)%nat) <$> find c (rev s).

(** [sep.join(parts)]. *)
Fixpoint join (sep : str) (parts : list str) : str :=
  match parts with
  | [] => []
  | [p] => p
  | p :: rest => p ++ sep ++ join sep rest
  end.

(** [s * n]: empty when [n <= 0]. *)
Definition mul (s : str) (n : Z) : str := concat (replicate (Z.to_nat n) s).

(** [s.splitlines()]: the lines without their terminators; CR LF is one
    terminator; a final terminator opens no further line. *)
Fixpoint splitlines (s : str) : list str :=
  match s with
  | [] => []
  | c :: s' =>
      if is_linebreak c then
        match s' with
        | c' :: s'' =>
            if (c =? CR)%N && (c' =? LF)%N then [] :: splitlines s''
            else [] :: splitlines s'
        | [] => [[]]
        end
      else
        match splitlines s' with
        | [] => [[c]]
        | l :: ls => (c :: l) :: ls
        end
  end.

(** [s.splitlines(keepends=True)]: the same lines with their terminators. *)
Fixpoint splitlines_keepends (s : str) : list str :=
  match s with
  | [] => []
  | c :: s' =>
      if is_linebreak c then
        match s' with
        | c' :: s'' =>
            if (c =? CR)%N && (c' =? LF)%N
            then [c; c'] :: splitlines_keepends s''
            else [c] :: splitlines_keepends s'
        | [] => [[c]]
        end
      else
        match splitlines_keepends s' with
        | [] => [[c]]
        | l :: ls => (c :: l) :: ls
        end
  end.

(** [enumerate(l)], counting from [n]. *)
Fixpoint enumerate_from {A} (n : nat) (l : list A) : list (nat * A) :=
  match l with
  | [] => []
  | x :: l' => (n, x) :: enumerate_from (S n) l'
  end.

Definition enumerate {A} (l : list A) : list (nat * A) := enumerate_from 0 l.

(** What a call returns: a value, or the exception it raises. *)
Inductive exception : Set :=
  | TokenError
  | ValueError
  | IndentationError
  | SyntaxError.

Inductive result (A : Type) : Type :=
  | Ok (a : A)
  | Raise (e : exception).

Arguments Ok {A} a.
Arguments Raise {A} e.

End Py.

(** ** The interface of [tokenize]

    A token carries its type and the [(row, column)] of its start and end;
    rows count from 1, columns from 0.  Iterating [generate_tokens] yields
    tokens and then either stops or raises. *)

Module Tokenize.
Import Py.

Inductive token_type : Set :=
  | ENDMARKER | NAME | NUMBER | STRING | NEWLINE | INDENT | DEDENT
  | OP | COMMENT | NL | ERRORTOKEN.

Record TokenInfo : Set := mkToken {
  type : token_type;
  start : positive * nat;
  end_ : positive * nat
}.

Record token_run : Set := mkRun {
  yielded : list TokenInfo;
  raised : option exception
}.

Definition is_string_or_comment (t : token_type) : bool :=
  match t with STRING | COMMENT => true | _ => false end.

End Tokenize.

(** ** The script *)

Module Script.
Import Py Tokenize.

Definition hash : char := ord "#".
Definition colon : char := ord ":".
Definition open_brace : char := ord "{".
Definition close_brace : char := ord "}".

Abbreviation positions := (gset (nat * nat)) (only parsing).

(** [for c in range(start_col, end_col): protected.add((line_idx, c))] *)
Definition add_columns (line_idx start_col end_col : nat)
    (protected : positions) : positions :=
  foldl (fun p c => {[ (line_idx, c) ]} ∪ p) protected
        (seq start_col (end_col - start_col)).

(** The body of the [for line_idx in range(sl, el + 1)] loop. *)
Definition add_token_line (lines : list str) (sl sc el ec : nat)
    (protected : positions) (line_idx : nat) : positions :=
  match lines !! line_idx with
  | None => protected
  | Some l =>
      let line_len := length l in
      if (line_idx =? sl)%nat then add_columns line_idx sc line_len protected
      else if (line_idx =? el)%nat
           then add_columns line_idx 0 (Nat.min ec line_len) protected
           else add_columns line_idx 0 line_len protected
  end.

(** The body of the [for token in ...] loop. *)
Definition add_token (lines : list str) (protected : positions)
    (token : TokenInfo) : positions :=
  if is_string_or_comment (type token) then
    let '(srow, sc) := start token in
    let '(erow, ec) := end_ token in
    let sl := (Pos.to_nat srow - 1)%nat in
    let el := (Pos.to_nat erow - 1)%nat in
    if (sl =? el)%nat then add_columns sl sc ec protected
    else foldl (add_token_line lines sl sc el ec) protected
               (seq sl (el + 1 - sl))
  else protected.

(** [except (tokenize.TokenError, ValueError): pass] *)
Definition handled (e : exception) : bool :=
  match e with TokenError | ValueError => true | _ => false end.

(** [extract_comment_after_brace] (lines 35-42): the text from the first
    [#] on, or the empty string. *)
Definition extract_comment_after_brace (text : str) : str :=
  let stripped := lstrip text in
  if startswith stripped [hash] then stripped
  else match find hash stripped with
       | Some k => drop k stripped          (* '#' in stripped *)
       | None => []
       end.

(** [is_scoping_open_brace] (lines 44-65): the protection veto, then the
    colon rule, then the rule for a line that starts with the brace. *)
Definition is_scoping_open_brace (line : str) (pos line_idx : nat)
    (protected : positions) : bool :=
  if bool_decide ((line_idx, pos) ∈ protected) then false
  else
    let before := take pos line in
    let after := drop (pos + 1) line in
    let after_colon :=
      match rfind colon before with
      | Some last_colon_idx =>               (* ':' in before *)
          let between := drop (last_colon_idx + 1) before in
          if truthy (strip between) then false
          else
            let after_clean := strip after in
            negb (truthy after_clean) || startswith after_clean [hash]
      | None => false
      end in
    if after_colon then true
    else
      let stripped := strip line in
      if bool_decide (stripped = [open_brace])
         || startswith stripped [open_brace]
            && truthy (extract_comment_after_brace (drop 1 stripped))
      then true
      else false.

(** [is_scoping_close_brace] (lines 67-78). *)
Definition is_scoping_close_brace (line : str) (pos line_idx : nat)
    (protected : positions) : bool :=
  if bool_decide ((line_idx, pos) ∈ protected) then false
  else
    let stripped := strip line in
    if bool_decide (stripped = [close_brace]) then true
    else if startswith stripped [close_brace] then
      let after := drop 1 stripped in
      if negb (truthy (lstrip after)) || startswith (lstrip after) [hash]
      then true
      else false
    else false.

(** The [while i < len(line)] scan of one line (lines 96-127, without the
    bodies of the two branches): the first brace that a classifier
    accepts, if any.  [rest] is [line[i:]]. *)
Inductive scan_result : Set :=
  | FoundOpen (i : nat)
  | FoundClose (i : nat)
  | NotFound.

Fixpoint scan_from (line : str) (line_idx : nat) (protected : positions)
    (i : nat) (rest : str) : scan_result :=
  match rest with
  | [] => NotFound
  | c :: rest' =>
      if (c =? open_brace)%N && is_scoping_open_brace line i line_idx protected
      then FoundOpen i
      else if (c =? close_brace)%N
              && is_scoping_close_brace line i line_idx protected
      then FoundClose i
      else scan_from line line_idx protected (S i) rest'
  end.

Definition scan (line : str) (line_idx : nat) (protected : positions)
    : scan_result :=
  scan_from line line_idx protected 0 line.

Definition indent_unit : str := py "    ".

(** One iteration of [for line_idx, orig_line in enumerate(lines)]
    (lines 89-136); the state is [(output_lines, indent_level)]. *)
Definition process_line (protected : positions) (st : list str * Z)
    (item : nat * str) : list str * Z :=
  let '(output_lines, indent_level) := st in
  let '(line_idx, line) := item in
  match scan line line_idx protected with
  | FoundOpen i =>
      let before := rstrip (take i line) in
      let after := drop (i + 1) line in
      let comment := extract_comment_after_brace after in
      let output_lines :=
        if truthy before || truthy comment then
          let new_line :=
            if truthy comment
            then before ++ (if truthy before then py "  " else []) ++ comment
            else before in
          output_lines ++ [new_line]
        else output_lines in
      (output_lines, indent_level + 1)
  | FoundClose i =>
      let indent_level := Z.max 0 (indent_level - 1) in
      let after := drop (i + 1) line in
      let comment := extract_comment_after_brace after in
      if truthy comment
      then (output_lines ++ [mul indent_unit indent_level ++ comment],
            indent_level)
      else (output_lines, indent_level)
  | NotFound =>
      let stripped := lstrip line in
      if truthy stripped
      then (output_lines ++ [mul indent_unit indent_level ++ stripped],
            indent_level)
      else (output_lines ++ [[]], indent_level)
  end.

(** One iteration of the blank-line post-pass (lines 140-143). *)
Definition collapse_step (cleaned_lines : list str) (line : str) : list str :=
  if bool_decide (line = []) && truthy_list cleaned_lines
     && bool_decide (last cleaned_lines = Some [])
  then cleaned_lines
  else cleaned_lines ++ [line].

(** Lines 86-149: everything after
    [protected = get_protected_positions(code)]. *)
Definition convert_lines (protected : positions) (code : str) : str :=
  let lines := splitlines code in
  let '(output_lines, _) :=
    foldl (process_line protected) ([], 0) (enumerate lines) in
  let cleaned_lines := foldl collapse_step [] output_lines in
  let result := join [LF] cleaned_lines in
  if endswith code [LF] then result ++ [LF] else result.

Section WithTokenizer.

Variable generate_tokens : str -> token_run.

(** [get_protected_positions] (lines 5-33): the tokens yielded before
    the iteration stops or raises are all processed; [TokenError] and
    [ValueError] are swallowed, any other exception propagates. *)
Definition get_protected_positions (code : str) : result positions :=
  let lines := splitlines_keepends code in
  let run := generate_tokens code in
  let protected := foldl (add_token lines) ∅ (yielded run) in
  match raised run with
  | None => Ok protected
  | Some e => if handled e then Ok protected else Raise e
  end.

(** [convert_curly_to_indented] (lines 80-149). *)
Definition convert_curly_to_indented (code : str) : result str :=
  if negb (truthy (strip code)) then Ok code
  else
    match get_protected_positions code with
    | Raise e => Raise e
    | Ok protected => Ok (convert_lines protected code)
    end.

End WithTokenizer.

End Script.

(** ** The vocabulary of the specification *)

Module Spec.
Import Py Tokenize Script.

(** Trivial input is empty or white space only: [not code.strip()]. *)
Definition trivial (code : str) : bool := negb (truthy (strip code)).

(** Two neighbouring lines that are both empty. *)
Fixpoint blank_pair (ls : list str) : bool :=
  match ls with
  | a :: (b :: _) as rest =>
      negb (truthy a) && negb (truthy b) || blank_pair rest
  | _ => false
  end.

(** A line is empty, or holds a character that is not white space. *)
Definition has_nonspace (l : str) : bool := existsb (fun c => negb (isspace c)) l.

Definition empty_or_visible (l : str) : bool := negb (truthy l) || has_nonspace l.

Definition blank (l : str) : bool := forallb isspace l.

(** A string that holds no line boundary: one line of text. *)
Definition no_linebreak (l : str) : Prop :=
  Forall (fun c => is_linebreak c = false) l.

(** What the main loop may append to [output_lines]. *)
Definition emitted_ok (l : str) : Prop :=
  no_linebreak l /\ empty_or_visible l = true.

(** The coordinates of the braces of a text. *)
Definition is_brace (c : char) : bool :=
  (c =? open_brace)%N || (c =? close_brace)%N.

Definition braces_of_line (line_idx : nat) (line : str) : list (nat * nat) :=
  (fun pc : nat * char => (line_idx, pc.1))
    <$> List.filter (fun pc : nat * char => is_brace pc.2) (enumerate line).

Definition brace_positions (lines : list str) : list (nat * nat) :=
  flat_map (fun il : nat * str => braces_of_line il.1 il.2) (enumerate lines).

(** Two protected sets give the same answer at a coordinate. *)
Definition agree (p p' : gset (nat * nat)) (q : nat * nat) : Prop :=
  q ∈ p <-> q ∈ p'.

(** No brace of [line] is classified as scoping. *)
Definition line_without_scoping_brace (protected : gset (nat * nat))
    (line_idx : nat) (line : str) : bool :=
  forallb
    (fun '(pos, c) =>
       negb ((c =? open_brace)%N
             && is_scoping_open_brace line pos line_idx protected)
       && negb ((c =? close_brace)%N
                && is_scoping_close_brace line pos line_idx protected))
    (enumerate line).

Definition no_scoping_braces (protected : gset (nat * nat))
    (lines : list str) : bool :=
  forallb (fun '(line_idx, line) =>
             line_without_scoping_brace protected line_idx line)
          (enumerate lines).

(** The blank-line post-pass as a function of the output lines. *)
Definition collapse (output_lines : list str) : list str :=
  foldl collapse_step [] output_lines.

(** The state after the first [k] lines of the main loop. *)
Definition state_after (protected : gset (nat * nat)) (lines : list str)
    (k : nat) : list str * Z :=
  foldl (process_line protected) ([], 0) (take k (enumerate lines)).

(** The white space a line starts with. *)
Fixpoint leading_space (l : str) : str :=
  match l with
  | c :: l' => if isspace c then c :: leading_space l' else []
  | [] => []
  end.

(** A line sits at depth [d]: it is indented by [d] units exactly. *)
Definition at_depth (d : Z) (l : str) : bool :=
  bool_decide (leading_space l = mul indent_unit d).

(** The same lines, leading white space apart. *)
Definition same_content (a b : str) : bool :=
  bool_decide (lstrip <$> splitlines a = lstrip <$> splitlines b).

End Spec.

(** ** Inputs of the specification's scenarios, with the tokens that
       [tokenize.generate_tokens] yields on them *)

Module Examples.
Import Py Tokenize Script.

Definition text (ls : list string) : str :=
  concat ((fun l => py l ++ [LF]) <$> ls).

Definition tok (t : token_type) (r1 : positive) (c1 : nat) (r2 : positive)
    (c2 : nat) : TokenInfo :=
  mkToken t (r1, c1) (r2, c2).

Definition tokenizer_of (run : token_run) : str -> token_run := fun _ => run.

#[local] Open Scope string_scope.

(** Scenario 2: a block opened after a colon, closed with a comment. *)
Definition scenario2 : str := text ["if x: {"; "    y()"; "} # done"].

Definition scenario2_run : token_run :=
  mkRun [tok NAME 1 0 1 2; tok NAME 1 3 1 4; tok OP 1 4 1 5; tok OP 1 6 1 7;
         tok NL 1 7 1 8; tok NAME 2 4 2 5; tok OP 2 5 2 6; tok OP 2 6 2 7;
         tok NL 2 7 2 8; tok OP 3 0 3 1; tok COMMENT 3 2 3 8;
         tok NEWLINE 3 8 3 9; tok ENDMARKER 4 0 4 0] None.

Definition scenario2_claimed : str := text ["if x:"; "    y()"; "    # done"].
Definition scenario2_actual : str := text ["if x:"; "    y()"; "# done"].

(** A block that is indented already and has no brace. *)
Definition indented_input : str := text ["if x:"; "    y()"].

Definition indented_run : token_run :=
  mkRun [tok NAME 1 0 1 2; tok NAME 1 3 1 4; tok OP 1 4 1 5;
         tok NEWLINE 1 5 1 6; tok INDENT 2 0 2 4; tok NAME 2 4 2 5;
         tok OP 2 5 2 6; tok OP 2 6 2 7; tok NEWLINE 2 7 2 8;
         tok DEDENT 3 0 3 0; tok ENDMARKER 3 0 3 0] None.

Definition indented_output : str := text ["if x:"; "y()"].

(** Three blank lines between two statements. *)
Definition blank_run_input : str := text ["a"; ""; ""; ""; "b"].

Definition blank_run_run : token_run :=
  mkRun [tok NAME 1 0 1 1; tok NEWLINE 1 1 1 2; tok NL 2 0 2 1;
         tok NL 3 0 3 1; tok NL 4 0 4 1; tok NAME 5 0 5 1;
         tok NEWLINE 5 1 5 2; tok ENDMARKER 6 0 6 0] None.

Definition blank_run_output : str := text ["a"; ""; "b"].

(** Three newlines and nothing else: trivial input. *)
Definition only_newlines : str := [LF; LF; LF].

Definition only_newlines_run : token_run :=
  mkRun [tok NL 1 0 1 1; tok NL 2 0 2 1; tok NL 3 0 3 1;
         tok ENDMARKER 4 0 4 0] None.

(** Scenario 3: braces inside a string literal. *)
Definition quoted_input : str := text ["s = 'a { b }'"].

Definition quoted_run : token_run :=
  mkRun [tok NAME 1 0 1 1; tok OP 1 2 1 3; tok STRING 1 4 1 13;
         tok NEWLINE 1 13 1 14; tok ENDMARKER 2 0 2 0] None.

(** A statement followed by a last line of one space, without newline. *)
Definition trailing_space_input : str := (py "a" ++ [LF] ++ py " ")%list.

Definition trailing_space_run : token_run :=
  mkRun [tok NAME 1 0 1 1; tok NEWLINE 1 1 1 2; tok ENDMARKER 2 0 2 0] None.

Definition trailing_space_output : str := text ["a"].

(** A dedent to a column that no enclosing block has: the tokenizer
    raises [IndentationError] at the third line. *)
Definition bad_dedent_input : str := text ["if x:"; "        y"; "    z"].

Definition bad_dedent_run : token_run :=
  mkRun [tok NAME 1 0 1 2; tok NAME 1 3 1 4; tok OP 1 4 1 5;
         tok NEWLINE 1 5 1 6; tok INDENT 2 0 2 8; tok NAME 2 8 2 9;
         tok NEWLINE 2 9 2 10] (Some IndentationError).

(** Code between an opening brace and a later comment. *)
Definition code_after_brace_line : str := py "{ foo() # c".
Definition code_after_brace_input : str := text ["{ foo() # c"].

Definition code_after_brace_run : token_run :=
  mkRun [tok OP 1 0 1 1; tok NAME 1 2 1 5; tok OP 1 5 1 6; tok OP 1 6 1 7;
         tok COMMENT 1 8 1 11; tok NL 1 11 1 12] (Some TokenError).

Definition code_after_brace_output : str := text ["# c"].

(** Two nested blocks whose headers are not indented in the source. *)
Definition nested_input : str := text ["if x: {"; "if y: {"; "z"; "}"; "}"].

Definition nested_run : token_run :=
  mkRun [tok NAME 1 0 1 2; tok NAME 1 3 1 4; tok OP 1 4 1 5; tok OP 1 6 1 7;
         tok NL 1 7 1 8; tok NAME 2 0 2 2; tok NAME 2 3 2 4; tok OP 2 4 2 5;
         tok OP 2 6 2 7; tok NL 2 7 2 8; tok NAME 3 0 3 1; tok NL 3 1 3 2;
         tok OP 4 0 4 1; tok NL 4 1 4 2; tok OP 5 0 5 1; tok NEWLINE 5 1 5 2;
         tok ENDMARKER 6 0 6 0] None.

Definition quoted_positions : gset (nat * nat) :=
  foldl (add_token (splitlines_keepends quoted_input)) ∅ (yielded quoted_run).

Definition scenario2_positions : gset (nat * nat) :=
  foldl (add_token (splitlines_keepends scenario2)) ∅ (yielded scenario2_run).

Definition nested_output : str := text ["if x:"; "if y:"; "        z"].

(** A comment whose text would match the colon pattern. *)
Definition comment_line : str := py "#: {".
Definition comment_positions : gset (nat * nat) :=
  add_token [comment_line] ∅ (tok COMMENT 1 0 1 4).

(** An indented block without braces of its own: a comment whose brace
    follows a colon, then a run of blank lines. *)
Definition flattened_input : str :=
  text ["if x:"; "    # note: {"; ""; ""; "    y()"].

Definition flattened_run : token_run :=
  mkRun [tok NAME 1 0 1 2; tok NAME 1 3 1 4; tok OP 1 4 1 5;
         tok NEWLINE 1 5 1 6; tok COMMENT 2 4 2 13; tok NL 2 13 2 14;
         tok NL 3 0 3 1; tok NL 4 0 4 1; tok INDENT 5 0 5 4;
         tok NAME 5 4 5 5; tok OP 5 5 5 6; tok OP 5 6 5 7;
         tok NEWLINE 5 7 5 8; tok DEDENT 6 0 6 0; tok ENDMARKER 6 0 6 0]
        None.

Definition flattened_positions : gset (nat * nat) :=
  foldl (add_token (splitlines_keepends flattened_input)) ∅
        (yielded flattened_run).

Definition flattened_output : str := text ["if x:"; "# note: {"; ""; "y()"].

(** A closing brace followed by a comment, and a header with a brace. *)
Definition close_line : str := py "} # end".
Definition header_line : str := py "if y: {".

End Examples.

(** ** What the protector covers, token by token *)

Module Coverage.
Import Py Tokenize Script.

(** The 0-based line of a token's start and of its end. *)
Definition start_line (t : TokenInfo) : nat := (Pos.to_nat (start t).1 - 1)%nat.
Definition end_line (t : TokenInfo) : nat := (Pos.to_nat (end_ t).1 - 1)%nat.

(** The columns of line [l] that the loop body marks for token [t]: on one
    line the token's own span; over several lines the rest of the first
    line, the whole of the lines between, and the last line up to the
    token's end, each cut at the line's length. *)
Definition covers (lines : list str) (t : TokenInfo) (l c : nat) : bool :=
  let sl := start_line t in
  let el := end_line t in
  let sc := (start t).2 in
  let ec := (end_ t).2 in
  if (sl =? el)%nat then (l =? sl)%nat && (sc <=? c)%nat && (c <? ec)%nat
  else
    (sl <=? l)%nat && (l <=? el)%nat &&
    match lines !! l with
    | None => false
    | Some line =>
        let line_len := length line in
        if (l =? sl)%nat then (sc <=? c)%nat && (c <? line_len)%nat
        else if (l =? el)%nat then (c <? Nat.min ec line_len)%nat
             else (c <? line_len)%nat
    end.

(** What one pass of the inner loop over lines adds. *)
Definition line_part (lines : list str) (sl sc el ec : nat)
    (q : nat * nat) : Prop :=
  exists line, lines !! q.1 = Some line /\
    if (q.1 =? sl)%nat then (sc <= q.2 < length line)%nat
    else if (q.1 =? el)%nat then (q.2 < Nat.min ec (length line))%nat
         else (q.2 < length line)%nat.

Definition protects (lines : list str) (t : TokenInfo) (l c : nat) : bool :=
  is_string_or_comment (type t) && covers lines t l c.

End Coverage.

(** ** Shapes of lines *)

Module Shapes.
Import Py Tokenize Script Spec.

(** What may follow a brace on its line: nothing, or a comment. *)
Definition comment_or_nothing (s : str) : bool :=
  match s with
  | [] => true
  | c :: _ => (c =? hash)%N
  end.

Definition no_brace (s : str) : bool := forallb (fun c => negb (is_brace c)) s.

(** A brace at column [pos] of [line] that its classifier accepts. *)
Definition accepted_brace (protected : gset (nat * nat)) (line_idx : nat)
    (line : str) (pos : nat) : bool :=
  match line !! pos with
  | Some c =>
      (c =? open_brace)%N && is_scoping_open_brace line pos line_idx protected
      || (c =? close_brace)%N
         && is_scoping_close_brace line pos line_idx protected
  | None => false
  end.

End Shapes.

(** ** The two passes of the conversion, named *)

Module Passes.
Import Py Tokenize Script Spec.

(** [output_lines] when the main loop ends, and [cleaned_lines]. *)
Definition output_lines_of (protected : gset (nat * nat)) (code : str)
    : list str :=
  (foldl (process_line protected) ([], 0) (enumerate (splitlines code))).1.

Definition cleaned_lines_of (protected : gset (nat * nat)) (code : str)
    : list str :=
  collapse (output_lines_of protected code).

(** What the main loop appends for a line without scoping brace at depth
    [d]: its content behind the indentation, or an empty line. *)
Definition reindent (d : Z) (line : str) : str :=
  if truthy (lstrip line) then mul indent_unit d ++ lstrip line else [].

(** The lines that are not empty, in order. *)
Definition nonblank_lines (ls : list str) : list str := List.filter truthy ls.

End Passes.

(** ** The driver

    [main] reads [curlied.py], converts and writes [whitespaced.py].  The
    file system and the console belong to the operating system: reading
    and writing are parameters, each either done or raising; what [print]
    sends to the two streams is recorded line by line, and [print] itself
    is taken to succeed: a console that cannot encode a message is outside
    the model. *)

Module Driver.
Import Py Tokenize Script.

Inductive io_exception : Set :=
  | FileNotFoundError
  | OtherIOError.

(** An exception that leaves [main]: from a file operation or from the
    conversion. *)
Inductive failure : Set :=
  | FromIO (e : io_exception)
  | FromConversion (e : exception).

Record console : Type := mkConsole {
  stdout : list str;
  stderr : list str
}.

Definition print_out (c : console) (s : str) : console :=
  mkConsole (stdout c ++ [s]) (stderr c).

Definition print_err (c : console) (s : str) : console :=
  mkConsole (stdout c) (stderr c ++ [s]).

Definition cross_mark : char := 10060%N.
Definition check_mark : char := 9989%N.
Definition arrow : char := 8594%N.

Definition not_found_message : str :=
  cross_mark :: py " Error: 'curlied.py' not found.".

Definition success_message : str :=
  check_mark :: py " Successfully converted 'curlied.py' "
    ++ arrow :: py " 'whitespaced.py'".

Section WithSystem.

Variable generate_tokens : str -> token_run.

Variable World : Type.

(** [open(name, 'r', encoding='utf-8')] and [f.read()]. *)
Variable read_text : string -> World -> io_exception + str.

(** [open(name, 'w', encoding='utf-8')] and [f.write(text)]: the world
    afterwards, and the exception if one is raised. *)
Variable write_text : string -> str -> World -> World * option io_exception.

(** [str(e)], as the f-string formats it. *)
Variable text_of : failure -> str.

Definition failed_message (e : failure) : str :=
  cross_mark :: py " Conversion failed: " ++ text_of e.

(** [main] (lines 151-166): the world and console afterwards, and the
    exception that leaves it, if any. *)
Definition main (w : World) (c : console) : World * console * option failure :=
  match read_text "curlied.py" w with
  | inl FileNotFoundError => (w, print_err c not_found_message, None)
  | inl e => (w, c, Some (FromIO e))
  | inr original_code =>
      match convert_curly_to_indented generate_tokens original_code with
      | Raise e =>
          (w, print_err c (failed_message (FromConversion e)),
           Some (FromConversion e))
      | Ok converted_code =>
          match write_text "whitespaced.py" converted_code w with
          | (w', Some e) =>
              (w', print_err c (failed_message (FromIO e)), Some (FromIO e))
          | (w', None) => (w', print_out c success_message, None)
          end
      end
  end.

End WithSystem.

(** An exception text for the examples: [str(e)] left empty. *)
Definition no_text : failure -> str := fun _ => [].

End Driver.

(** * Proofs *)

Import Py Tokenize Script Spec Examples.

(** Closed facts about the scenarios are settled by evaluation. *)
Ltac by_evaluation := repeat split; vm_compute; reflexivity.

(** ** Stripping, searching and extracting *)

Section StringFacts.

Variable P : N -> Prop.

Lemma lstrip_Forall (s : list N) : Forall P s -> Forall P (lstrip s).
Proof.
  induction 1 as [|c s Hc Hs IH]; simpl; [constructor|].
  destruct (isspace c); [exact IH | by constructor].
Qed.

Lemma rstrip_Forall (s : list N) : Forall P s -> Forall P (rstrip s).
Proof.
  intros H. unfold rstrip.
  apply Forall_rev, lstrip_Forall, Forall_rev, H.
Qed.

Lemma strip_Forall (s : list N) : Forall P s -> Forall P (strip s).
Proof. intros H. by apply lstrip_Forall, rstrip_Forall. Qed.

End StringFacts.

Lemma lstrip_head (s : list N) c t : lstrip s = c :: t -> isspace c = false.
Proof.
  induction s as [|x s IH]; simpl; [done|].
  destruct (isspace x) eqn:E; [exact IH|].
  intros [= <- _]. exact E.
Qed.

Lemma has_nonspace_head c t : isspace c = false -> has_nonspace (c :: t) = true.
Proof. intros H. unfold has_nonspace. simpl. by rewrite H. Qed.

Lemma has_nonspace_app a b :
  has_nonspace (a ++ b) = has_nonspace a || has_nonspace b.
Proof. apply existsb_app. Qed.

Lemma has_nonspace_rev a : has_nonspace (rev a) = has_nonspace a.
Proof.
  unfold has_nonspace. apply eq_true_iff_eq.
  rewrite !existsb_exists. split; intros (c & Hin & Hc); exists c; split; auto.
  - by apply in_rev.
  - by apply in_rev in Hin.
Qed.

Lemma lstrip_visible (s : list N) :
  truthy (lstrip s) = true -> has_nonspace (lstrip s) = true.
Proof.
  destruct (lstrip s) as [|c t] eqn:E; [done|]. intros _.
  eapply has_nonspace_head, lstrip_head, E.
Qed.

Lemma rstrip_visible (s : list N) :
  truthy (rstrip s) = true -> has_nonspace (rstrip s) = true.
Proof.
  unfold rstrip. destruct (lstrip (rev s)) as [|c t] eqn:E; [done|]. intros _.
  rewrite has_nonspace_rev. eapply has_nonspace_head, lstrip_head, E.
Qed.

Lemma find_drop c (s : list N) k :
  find c s = Some k -> exists t, drop k s = c :: t.
Proof.
  revert k. induction s as [|x s IH]; intros k; simpl; [done|].
  destruct (x =? c)%N eqn:E.
  - intros [= <-]. apply N.eqb_eq in E. subst. by eexists.
  - destruct (find c s) as [j|]; simpl; [|done].
    intros [= <-]. by apply IH.
Qed.

Lemma startswith_char (s : list N) c :
  startswith s [c] = true -> exists t, s = c :: t.
Proof.
  destruct s as [|x t]; simpl; [done|].
  rewrite andb_true_r. intros H%N.eqb_eq. subst. by eexists.
Qed.

Lemma extract_comment_hash text :
  truthy (extract_comment_after_brace text) = true ->
  exists t, extract_comment_after_brace text = hash :: t.
Proof.
  unfold extract_comment_after_brace.
  destruct (startswith (lstrip text) [hash]) eqn:E.
  - intros _. by apply startswith_char.
  - destruct (find hash (lstrip text)) as [k|] eqn:F; [|done].
    intros _. eapply find_drop, F.
Qed.

Lemma extract_comment_Forall (P : N -> Prop) text :
  Forall P text -> Forall P (extract_comment_after_brace text).
Proof.
  intros H. unfold extract_comment_after_brace.
  destruct (startswith _ _); [by apply lstrip_Forall|].
  destruct (find _ _); [|constructor].
  by apply Forall_drop, lstrip_Forall.
Qed.

Lemma hash_visible t : has_nonspace (hash :: t) = true.
Proof. reflexivity. Qed.

Lemma mul_indent_Forall (P : N -> Prop) d :
  P 32%N -> Forall P (mul indent_unit d).
Proof.
  intros H. unfold mul. induction (Z.to_nat d) as [|n IH]; simpl.
  - constructor.
  - repeat constructor; try exact H. exact IH.
Qed.
(** ** Lines: [splitlines] after [join] *)

Lemma splitlines_no_linebreak_upto n (s : list N) :
  (length s <= n)%nat -> Forall no_linebreak (splitlines s).
Proof.
  revert s. induction n as [|n IH]; intros [|c s] Hlen; simpl in *;
    try (constructor; fail); try lia.
  destruct (is_linebreak c) eqn:E.
  - destruct s as [|c' s']; [repeat constructor|].
    destruct ((c =? CR)%N && (c' =? LF)%N);
      (constructor; [constructor | apply IH; simpl in *; lia]).
  - assert (Hs : Forall no_linebreak (splitlines s)) by (apply IH; lia).
    destruct (splitlines s) as [|l ls]; [repeat constructor; exact E|].
    inversion_clear Hs as [|? ? Hl Hls].
    constructor; [by constructor | exact Hls].
Qed.

Lemma splitlines_no_linebreak (s : list N) :
  Forall no_linebreak (splitlines s).
Proof. by apply (splitlines_no_linebreak_upto (length s)). Qed.

Lemma splitlines_single (l : list N) :
  no_linebreak l -> splitlines l = if truthy l then [l] else [].
Proof.
  induction 1 as [|c l Hc Hl IH]; simpl; [done|].
  rewrite Hc, IH. by destruct l.
Qed.

Lemma splitlines_line (l rest : list N) :
  no_linebreak l -> splitlines (l ++ LF :: rest) = l :: splitlines rest.
Proof.
  induction 1 as [|c l Hc Hl IH]; simpl.
  - by destruct rest.
  - by rewrite Hc, IH.
Qed.

Lemma splitlines_join (ls : list (list N)) :
  Forall no_linebreak ls ->
  splitlines (join [LF] ls) =
    match last ls with Some [] => removelast ls | _ => ls end.
Proof.
  induction 1 as [|p ls Hp Hls IH]; [done|].
  destruct ls as [|q rest].
  - simpl. rewrite splitlines_single by done. by destruct p.
  - change (join [LF] (p :: q :: rest))
      with (p ++ LF :: join [LF] (q :: rest)).
    rewrite splitlines_line, IH by done.
    change (last (p :: q :: rest)) with (last (q :: rest)).
    change (removelast (p :: q :: rest)) with (p :: removelast (q :: rest)).
    by destruct (last (q :: rest)) as [[|]|].
Qed.

Lemma splitlines_join_LF (ls : list (list N)) :
  Forall no_linebreak ls ->
  splitlines (join [LF] ls ++ [LF]) =
    match ls with [] => [[]] | _ => ls end.
Proof.
  induction 1 as [|p ls Hp Hls IH]; [done|].
  destruct ls as [|q rest].
  - simpl. by rewrite splitlines_line.
  - change (join [LF] (p :: q :: rest) ++ [LF])
      with ((p ++ LF :: join [LF] (q :: rest)) ++ [LF]).
    rewrite <- app_assoc. simpl.
    rewrite splitlines_line by done.
    f_equal. exact IH.
Qed.

(** ** The blank-line post-pass *)

Lemma blank_pair_prefix (a b : list (list N)) :
  blank_pair (a ++ b) = false -> blank_pair a = false.
Proof.
  induction a as [|x a IH]; [done|].
  destruct a as [|y a]; [done|].
  simpl in *. intros [H1 H2]%orb_false_elim.
  rewrite H1. simpl. by apply IH.
Qed.

Lemma blank_pair_removelast (ls : list (list N)) :
  blank_pair ls = false -> blank_pair (removelast ls) = false.
Proof.
  destruct ls as [|x ls]; [done|]. intros H.
  apply (blank_pair_prefix _ [List.last (x :: ls) []]).
  by rewrite <- app_removelast_last.
Qed.

Lemma blank_pair_snoc (l : list (list N)) (x : list N) :
  blank_pair (l ++ [x]) =
    blank_pair l || bool_decide (last l = Some []) && negb (truthy x).
Proof.
  induction l as [|a l IH]; [done|].
  destruct l as [|b l].
  - simpl. rewrite orb_false_r. by destruct a.
  - change (blank_pair ((a :: b :: l) ++ [x]))
      with (negb (truthy a) && negb (truthy b) || blank_pair ((b :: l) ++ [x])).
    rewrite IH. change (last (a :: b :: l)) with (last (b :: l)).
    simpl. by rewrite orb_assoc.
Qed.

Lemma collapse_step_blank_pair (acc : list (list N)) (x : list N) :
  blank_pair acc = false -> blank_pair (collapse_step acc x) = false.
Proof.
  intros H. unfold collapse_step.
  destruct (bool_decide (x = []) && truthy_list acc
            && bool_decide (last acc = Some [])) eqn:E; [done|].
  rewrite blank_pair_snoc, H. simpl.
  destruct (bool_decide (last acc = Some [])) eqn:L; [|done].
  destruct x; [|done].
  apply bool_decide_eq_true in L. by destruct acc.
Qed.

Lemma foldl_collapse_blank_pair (out acc : list (list N)) :
  blank_pair acc = false ->
  blank_pair (foldl collapse_step acc out) = false.
Proof.
  revert acc. induction out as [|x out IH]; intros acc H; [done|].
  simpl. by apply IH, collapse_step_blank_pair.
Qed.

Lemma collapse_blank_pair (out : list (list N)) :
  blank_pair (collapse out) = false.
Proof. by apply foldl_collapse_blank_pair. Qed.

Lemma foldl_collapse_Forall (Q : list N -> Prop) (out acc : list (list N)) :
  Forall Q acc -> Forall Q out -> Forall Q (foldl collapse_step acc out).
Proof.
  revert acc. induction out as [|x out IH]; intros acc Ha Ho; [done|].
  inversion_clear Ho as [|? ? Hx Hout]. simpl. apply IH; [|done].
  unfold collapse_step. destruct (_ && _); [done|].
  apply Forall_app. by repeat constructor.
Qed.

Lemma collapse_Forall (Q : list N -> Prop) (out : list (list N)) :
  Forall Q out -> Forall Q (collapse out).
Proof. by apply foldl_collapse_Forall. Qed.

(** ** What the main loop emits *)

Lemma visible_ok (l : list N) :
  no_linebreak l -> has_nonspace l = true -> emitted_ok l.
Proof.
  intros H1 H2. split; [done|]. unfold empty_or_visible.
  by rewrite H2, orb_true_r.
Qed.

(** The pieces a line is cut into and put together from hold no line
    boundary when the line holds none. *)

Lemma no_linebreak_lstrip s : no_linebreak s -> no_linebreak (lstrip s).
Proof. apply lstrip_Forall. Qed.

Lemma no_linebreak_rstrip s : no_linebreak s -> no_linebreak (rstrip s).
Proof. apply rstrip_Forall. Qed.

Lemma no_linebreak_take i s : no_linebreak s -> no_linebreak (take i s).
Proof. apply Forall_take. Qed.

Lemma no_linebreak_drop i s : no_linebreak s -> no_linebreak (drop i s).
Proof. apply Forall_drop. Qed.

Lemma no_linebreak_comment s :
  no_linebreak s -> no_linebreak (extract_comment_after_brace s).
Proof. apply extract_comment_Forall. Qed.

Lemma no_linebreak_indent d : no_linebreak (mul indent_unit d).
Proof. by apply mul_indent_Forall. Qed.

Lemma no_linebreak_app a b :
  no_linebreak a -> no_linebreak b -> no_linebreak (a ++ b).
Proof. intros. by apply Forall_app. Qed.

Lemma no_linebreak_separator (b : bool) :
  no_linebreak (if b then py "  " else []).
Proof. destruct b; by repeat constructor. Qed.

Create HintDb oneline.

#[local] Hint Resolve no_linebreak_lstrip no_linebreak_rstrip
  no_linebreak_take no_linebreak_drop no_linebreak_comment
  no_linebreak_indent no_linebreak_app no_linebreak_separator : oneline.

Lemma emitted_snoc (out : list (list N)) (l : list N) :
  Forall emitted_ok out -> no_linebreak l -> has_nonspace l = true ->
  Forall emitted_ok (out ++ [l]).
Proof.
  intros Hout Hl Hvis. apply Forall_app. split; [done|].
  constructor; [by apply visible_ok | constructor].
Qed.

Lemma process_line_emitted protected out d idx line :
  no_linebreak line -> Forall emitted_ok out ->
  Forall emitted_ok (process_line protected (out, d) (idx, line)).1.
Proof.
  intros Hline Hout. unfold process_line.
  destruct (scan line idx protected) as [i|i|].
  - destruct (truthy (rstrip (take i line))
              || truthy (extract_comment_after_brace (drop (i + 1) line)))
      eqn:E; [|done].
    destruct (truthy (extract_comment_after_brace _)) eqn:C;
      (apply emitted_snoc; [done | auto 6 with oneline |]).
    + destruct (extract_comment_hash _ C) as [t ->].
      by rewrite !has_nonspace_app, hash_visible, !orb_true_r.
    + rewrite orb_false_r in E. by apply rstrip_visible.
  - destruct (truthy (extract_comment_after_brace _)) eqn:C; [|done].
    apply emitted_snoc; [done | auto with oneline |].
    destruct (extract_comment_hash _ C) as [t ->].
    by rewrite has_nonspace_app, hash_visible, orb_true_r.
  - destruct (truthy (lstrip line)) eqn:S.
    + apply emitted_snoc; [done | auto with oneline |].
      by rewrite has_nonspace_app, lstrip_visible, orb_true_r.
    + apply Forall_app. split; [done|]. by repeat constructor.
Qed.

Lemma process_line_depth protected out d idx line :
  0 <= d -> 0 <= (process_line protected (out, d) (idx, line)).2.
Proof.
  intros Hd. unfold process_line.
  destruct (scan line idx protected) as [i|i|]; simpl.
  - lia.
  - destruct (truthy _); simpl; lia.
  - destruct (truthy _); simpl; lia.
Qed.

Lemma main_loop_invariant protected lines n st :
  Forall no_linebreak lines -> Forall emitted_ok st.1 -> 0 <= st.2 ->
  Forall emitted_ok (foldl (process_line protected) st (enumerate_from n lines)).1
  /\ 0 <= (foldl (process_line protected) st (enumerate_from n lines)).2.
Proof.
  intros Hlines. revert n st.
  induction Hlines as [|line lines Hl Hls IH]; intros n [out d] Hout Hd; [done|].
  simpl. apply IH.
  - by apply process_line_emitted.
  - by apply process_line_depth.
Qed.

(** The lines of the text that [convert_lines] returns. *)
Lemma convert_lines_splitlines protected code :
  exists cleaned,
    Forall emitted_ok cleaned /\ blank_pair cleaned = false /\
    convert_lines protected code =
      join [LF] cleaned ++ (if endswith code [LF] then [LF] else []) /\
    splitlines (convert_lines protected code) =
      if endswith code [LF]
      then match cleaned with [] => [[]] | _ => cleaned end
      else match last cleaned with
           | Some [] => removelast cleaned
           | _ => cleaned
           end.
Proof.
  unfold convert_lines.
  destruct (main_loop_invariant protected (splitlines code) 0 ([], 0))
    as [Hout _]; [apply splitlines_no_linebreak | done | done |].
  unfold enumerate.
  destruct (foldl _ _ _) as [out d]. simpl in Hout.
  exists (foldl collapse_step [] out).
  assert (Hc : Forall emitted_ok (foldl collapse_step [] out))
    by by apply foldl_collapse_Forall.
  assert (Hnl : Forall no_linebreak (foldl collapse_step [] out))
    by (eapply Forall_impl; [exact Hc | by intros ? []]).
  split; [done|]. split; [by apply foldl_collapse_blank_pair|].
  destruct (endswith code [LF]).
  - split; [done|]. by apply splitlines_join_LF.
  - rewrite app_nil_r. split; [done|]. by apply splitlines_join.
Qed.

(** ** Scanning one line *)

Lemma scan_from_FoundClose line idx protected rest i j :
  scan_from line idx protected j rest = FoundClose i ->
  rest !! (i - j)%nat = Some close_brace /\ (j <= i)%nat /\
  is_scoping_close_brace line i idx protected = true.
Proof.
  revert j. induction rest as [|c rest IH]; intros j; simpl; [done|].
  destruct ((c =? open_brace)%N && _); [done|].
  destruct ((c =? close_brace)%N && _) eqn:E.
  - intros [= <-]. apply andb_true_iff in E as [->%N.eqb_eq E].
    by rewrite Nat.sub_diag.
  - intros (H1 & H2 & H3)%IH. split; [|split; [lia | done]].
    replace (i - j)%nat with (S (i - S j)) by lia. exact H1.
Qed.

Lemma scan_FoundClose line idx protected i :
  scan line idx protected = FoundClose i ->
  line !! i = Some close_brace /\
  is_scoping_close_brace line i idx protected = true.
Proof.
  intros (H1 & _ & H2)%scan_from_FoundClose.
  by rewrite Nat.sub_0_r in H1.
Qed.

Lemma scan_from_FoundOpen line idx protected rest i j :
  scan_from line idx protected j rest = FoundOpen i ->
  rest !! (i - j)%nat = Some open_brace /\ (j <= i)%nat /\
  is_scoping_open_brace line i idx protected = true.
Proof.
  revert j. induction rest as [|c rest IH]; intros j; simpl; [done|].
  destruct ((c =? open_brace)%N && _) eqn:E.
  - intros [= <-]. apply andb_true_iff in E as [->%N.eqb_eq E].
    by rewrite Nat.sub_diag.
  - destruct ((c =? close_brace)%N && _); [done|].
    intros (H1 & H2 & H3)%IH. split; [|split; [lia | done]].
    replace (i - j)%nat with (S (i - S j)) by lia. exact H1.
Qed.

Lemma scan_FoundOpen line idx protected i :
  scan line idx protected = FoundOpen i ->
  line !! i = Some open_brace /\
  is_scoping_open_brace line i idx protected = true.
Proof.
  intros (H1 & _ & H2)%scan_from_FoundOpen.
  by rewrite Nat.sub_0_r in H1.
Qed.

Lemma space_is_no_brace c :
  isspace c = true -> (c =? open_brace)%N = false /\ (c =? close_brace)%N = false.
Proof.
  intros H. split; apply N.eqb_neq; intros ->; discriminate H.
Qed.

Lemma scan_from_blank line idx protected rest j :
  blank rest = true -> scan_from line idx protected j rest = NotFound.
Proof.
  revert j. induction rest as [|c rest IH]; intros j; simpl; [done|].
  intros [Hc Hrest]%andb_true_iff.
  destruct (space_is_no_brace c Hc) as [-> ->]. simpl. by apply IH.
Qed.

Lemma lstrip_blank (l : list N) : blank l = true -> lstrip l = [].
Proof.
  induction l as [|c l IH]; simpl; [done|].
  intros [-> Hl]%andb_true_iff. by apply IH.
Qed.

Lemma process_line_blank protected out d idx line :
  blank line = true ->
  process_line protected (out, d) (idx, line) = (out ++ [[]], d).
Proof.
  intros H. unfold process_line, scan.
  by rewrite scan_from_blank, lstrip_blank.
Qed.

Lemma scan_from_without line idx protected rest j :
  forallb
    (fun '(pos, c) =>
       negb ((c =? open_brace)%N
             && is_scoping_open_brace line pos idx protected)
       && negb ((c =? close_brace)%N
                && is_scoping_close_brace line pos idx protected))
    (enumerate_from j rest) = true ->
  scan_from line idx protected j rest = NotFound.
Proof.
  revert j. induction rest as [|c rest IH]; intros j; simpl; [done|].
  intros [[H1 H2]%andb_true_iff Hrest]%andb_true_iff.
  apply negb_true_iff in H1, H2. rewrite H1, H2. by apply IH.
Qed.

Lemma mul_zero (s : list N) : mul s 0 = [].
Proof. reflexivity. Qed.

Lemma process_line_without protected out idx line :
  line_without_scoping_brace protected idx line = true ->
  process_line protected (out, 0) (idx, line) = (out ++ [lstrip line], 0).
Proof.
  intros H. unfold process_line, scan.
  rewrite scan_from_without by exact H.
  rewrite mul_zero. simpl. by destruct (lstrip line).
Qed.

Lemma main_loop_without protected lines n out :
  forallb (fun '(line_idx, line) =>
             line_without_scoping_brace protected line_idx line)
          (enumerate_from n lines) = true ->
  foldl (process_line protected) (out, 0) (enumerate_from n lines)
  = (out ++ (lstrip <$> lines), 0).
Proof.
  revert n out. induction lines as [|line lines IH]; intros n out;
    cbn [enumerate_from foldl forallb fmap list_fmap].
  - by rewrite app_nil_r.
  - intros [H1 H2]%andb_true_iff.
    rewrite process_line_without by done.
    rewrite IH by done. by rewrite <- app_assoc.
Qed.

Lemma enumerate_from_take {A} (l : list A) n k :
  take k (enumerate_from n l) = enumerate_from n (take k l).
Proof.
  revert n k. induction l as [|x l IH]; intros n [|k]; simpl; try done.
  by rewrite IH.
Qed.

Lemma forallb_take {A} (f : A -> bool) (l : list A) k :
  forallb f l = true -> forallb f (take k l) = true.
Proof.
  revert k. induction l as [|x l IH]; intros [|k]; simpl; try done.
  intros [-> H]%andb_true_iff. by apply IH.
Qed.

Lemma foldl_process_depth protected items st :
  0 <= st.2 -> 0 <= (foldl (process_line protected) st items).2.
Proof.
  revert st. induction items as [|[idx line] items IH]; intros [out d] H; [done|].
  simpl. by apply IH, process_line_depth.
Qed.

(** ** Leading white space of a header *)

Lemma leading_space_app (a b : list N) :
  has_nonspace a = true -> leading_space (a ++ b) = leading_space a.
Proof.
  induction a as [|c a IH]; simpl; [done|].
  destruct (isspace c); simpl; [|done]. intros H. f_equal. by apply IH.
Qed.

Lemma lstrip_split (s : list N) :
  exists ws, s = ws ++ lstrip s.
Proof.
  induction s as [|c s [ws IH]]; simpl; [by exists []|].
  destruct (isspace c); [|by exists []].
  exists (c :: ws). simpl. by f_equal.
Qed.

Lemma rstrip_split (s : list N) : exists ws, s = rstrip s ++ ws.
Proof.
  destruct (lstrip_split (rev s)) as [ws H]. exists (rev ws).
  unfold rstrip. rewrite <- rev_app_distr, <- H. by rewrite rev_involutive.
Qed.

Lemma leading_space_rstrip (s : list N) :
  truthy (rstrip s) = true -> leading_space (rstrip s) = leading_space s.
Proof.
  intros H%rstrip_visible. destruct (rstrip_split s) as [ws Hs].
  rewrite Hs at 2. by rewrite leading_space_app.
Qed.

Lemma has_nonspace_rstrip (s : list N) :
  has_nonspace (rstrip s) = has_nonspace s.
Proof.
  unfold rstrip. rewrite has_nonspace_rev.
  rewrite <- (has_nonspace_rev s).
  induction (rev s) as [|c r IH]; [done|].
  cbn [lstrip]. destruct (isspace c) eqn:E; [|done].
  rewrite IH. unfold has_nonspace. simpl. by rewrite E.
Qed.

Lemma leading_space_header (line : list N) i :
  truthy (rstrip (take i line)) = true ->
  leading_space (rstrip (take i line)) = leading_space line.
Proof.
  intros H. rewrite leading_space_rstrip by done.
  rewrite <- (take_drop i line) at 2.
  rewrite leading_space_app; [done|].
  rewrite <- has_nonspace_rstrip. by apply rstrip_visible.
Qed.

(** ** The conversion, for any tokenizer *)

Section Conversion.

Variable generate_tokens : str -> token_run.

Lemma convert_trivial code :
  trivial code = true ->
  convert_curly_to_indented generate_tokens code = Ok code.
Proof.
  unfold trivial, convert_curly_to_indented. by intros ->.
Qed.

Lemma convert_Ok_inv code out :
  trivial code = false ->
  convert_curly_to_indented generate_tokens code = Ok out ->
  exists protected,
    get_protected_positions generate_tokens code = Ok protected
    /\ out = convert_lines protected code.
Proof.
  unfold trivial, convert_curly_to_indented. intros ->.
  destruct (get_protected_positions generate_tokens code) as [p|e]; [|done].
  intros [= <-]. by exists p.
Qed.

Lemma protector_returns_accumulated code :
  match raised (generate_tokens code) with
  | None => True
  | Some e => handled e = true
  end ->
  get_protected_positions generate_tokens code
  = Ok (foldl (add_token (splitlines_keepends code)) ∅
              (yielded (generate_tokens code))).
Proof.
  unfold get_protected_positions.
  destruct (raised (generate_tokens code)) as [e|]; [|done]. by intros ->.
Qed.

Lemma convert_returns code :
  match raised (generate_tokens code) with
  | None => True
  | Some e => handled e = true
  end ->
  exists out, convert_curly_to_indented generate_tokens code = Ok out.
Proof.
  intros H. unfold convert_curly_to_indented.
  destruct (negb (truthy (strip code))); [by eexists|].
  rewrite (protector_returns_accumulated code H). by eexists.
Qed.

Lemma protector_raises code e :
  raised (generate_tokens code) = Some e -> handled e = false ->
  get_protected_positions generate_tokens code = Raise e.
Proof. unfold get_protected_positions. by intros -> ->. Qed.

Lemma convert_raises code e :
  trivial code = false ->
  raised (generate_tokens code) = Some e -> handled e = false ->
  convert_curly_to_indented generate_tokens code = Raise e.
Proof.
  unfold trivial, convert_curly_to_indented. intros -> H1 H2.
  by rewrite (protector_raises _ _ H1 H2).
Qed.

(** X14: a final newline of the input is a final newline of the output. *)
Lemma final_newline_is_kept code out :
  endswith code [LF] = true ->
  convert_curly_to_indented generate_tokens code = Ok out ->
  endswith out [LF] = true.
Proof.
  intros Hend Hout. destruct (trivial code) eqn:T.
  - rewrite (convert_trivial code T) in Hout. by injection Hout as <-.
  - destruct (convert_Ok_inv code out T Hout) as (protected & _ & ->).
    destruct (convert_lines_splitlines protected code)
      as (cleaned & _ & _ & -> & _).
    rewrite Hend. unfold endswith. by rewrite rev_app_distr.
Qed.

(** C6 (amended): for every input that is not trivial (it holds a
    character that is not white space), no two consecutive lines of the
    converted text are both empty. *)
Theorem output_has_no_blank_pair (code out : str) :
  trivial code = false ->
  convert_curly_to_indented generate_tokens code = Ok out ->
  blank_pair (splitlines out) = false.
Proof.
  intros Hcode (protected & _ & ->)%convert_Ok_inv; [|done].
  destruct (convert_lines_splitlines protected code)
    as (cleaned & _ & Hpair & _ & ->).
  destruct (endswith code [LF]).
  - by destruct cleaned.
  - destruct (last cleaned) as [[|]|]; [|done..].
    by apply blank_pair_removelast.
Qed.

(** C10: for every input that is not trivial, each line of the converted
    text is empty or holds a character that is not white space; and a
    source line of white space only adds one empty line to the output and
    leaves the depth as it is. *)
Theorem output_lines_empty_or_visible (code out : str) :
  trivial code = false ->
  convert_curly_to_indented generate_tokens code = Ok out ->
  Forall (fun l => empty_or_visible l = true) (splitlines out)
  /\ forall (protected : gset (nat * nat)) (output_lines : list str)
       (indent_level : Z) (line_idx : nat) (line : str),
       blank line = true ->
       process_line protected (output_lines, indent_level) (line_idx, line)
       = (output_lines ++ [[]], indent_level).
Proof.
  intros Hcode (protected & _ & ->)%convert_Ok_inv; [|done].
  split; [|intros; by apply process_line_blank].
  destruct (convert_lines_splitlines protected code)
    as (cleaned & Hok & _ & _ & ->).
  assert (Hvis : Forall (fun l => empty_or_visible l = true) cleaned)
    by (eapply Forall_impl; [exact Hok | by intros ? []]).
  destruct (endswith code [LF]).
  - destruct cleaned; [by repeat constructor | done].
  - destruct (last cleaned) as [[|]|]; [|done..].
    destruct cleaned as [|x cleaned]; [done|].
    rewrite (app_removelast_last [] (l:=x :: cleaned)) in Hvis by done.
    by apply Forall_app in Hvis as [? _].
Qed.

(** C3 (amended): when the protector returns on a non-trivial input and
    no brace of the input is scoping under the set it returns, the
    converted text is the input's lines without their leading white
    space, runs of blank lines collapsed to one, joined by newlines, a
    newline being appended when the input ends with one; and the depth is
    0 after every line. *)
Theorem unbraced_text_passes_through (code : str)
    (protected : gset (nat * nat)) :
  trivial code = false ->
  get_protected_positions generate_tokens code = Ok protected ->
  no_scoping_braces protected (splitlines code) = true ->
  convert_curly_to_indented generate_tokens code
  = Ok (join [LF] (collapse (lstrip <$> splitlines code))
        ++ (if endswith code [LF] then [LF] else []))
  /\ forall k : nat, state_after protected (splitlines code) k
               = (lstrip <$> take k (splitlines code), 0).
Proof.
  intros Hcode Hprot Hnone. split.
  - unfold trivial in Hcode. unfold convert_curly_to_indented.
    rewrite Hcode, Hprot. f_equal. unfold convert_lines, enumerate.
    rewrite main_loop_without by exact Hnone. simpl.
    destruct (endswith code [LF]); [done | by rewrite app_nil_r].
  - intros k. unfold state_after, enumerate.
    rewrite enumerate_from_take, main_loop_without; [done|].
    rewrite <- enumerate_from_take. by apply forallb_take.
Qed.

End Conversion.

(** ** The classifiers and the line reducer *)

(** C2: a brace whose coordinate is protected is scoping for neither
    classifier, whatever the line around it looks like. *)
Theorem protected_brace_is_never_scoping (line : str)
    (pos line_idx : nat) (protected : gset (nat * nat)) :
  (line_idx, pos) ∈ protected ->
  is_scoping_open_brace line pos line_idx protected = false
  /\ is_scoping_close_brace line pos line_idx protected = false
  /\ scan line line_idx protected <> FoundOpen pos
  /\ scan line line_idx protected <> FoundClose pos.
Proof.
  intros H.
  assert (Hopen : is_scoping_open_brace line pos line_idx protected = false)
    by (unfold is_scoping_open_brace; by rewrite bool_decide_eq_true_2).
  assert (Hclose : is_scoping_close_brace line pos line_idx protected = false)
    by (unfold is_scoping_close_brace; by rewrite bool_decide_eq_true_2).
  repeat split; [done | done | |].
  - intros [_ Hs]%scan_FoundOpen. congruence.
  - intros [_ Hs]%scan_FoundClose. congruence.
Qed.

(** The indentation of depth [d] is [4 * d] spaces, none when [d <= 0]. *)
Lemma indent_is_four_spaces_per_level (d : Z) :
  mul indent_unit d = replicate (Z.to_nat (4 * d)) (ord " ").
Proof.
  unfold mul. replace (Z.to_nat (4 * d)) with (4 * Z.to_nat d)%nat by lia.
  induction (Z.to_nat d) as [|n IH]; [done|].
  replace (4 * S n)%nat with (S (S (S (S (4 * n))))) by lia.
  simpl. by rewrite IH.
Qed.

(** The comment after a brace is the text from the first [#] on. *)
Lemma comment_starts_at_first_hash (text : list N) :
  extract_comment_after_brace text
  = match find hash text with
    | Some k => drop k text
    | None => []
    end.
Proof.
  induction text as [|c t IH]; [done|].
  unfold extract_comment_after_brace in *. cbn [lstrip find].
  destruct (N.eqb_spec c hash) as [->|Hne].
  - replace (isspace hash) with false by (vm_compute; reflexivity).
    cbn [startswith]. by rewrite N.eqb_refl.
  - apply N.eqb_neq in Hne. destruct (isspace c).
    + rewrite IH. by destruct (find hash t).
    + cbn [startswith find]. by rewrite !Hne.
Qed.

(** C5: when the scan of a line stops at a scoping close brace, the depth
    becomes [max 0 (depth - 1)], which is never negative; if the rest of
    the line holds a [#], the line adds one output line: four spaces
    times the new depth, then the text from that [#] on; if it holds
    none, the line adds nothing; and over any lines, starting from depth
    0, the depth is never negative. *)
Theorem scoping_close_floors_depth (protected : gset (nat * nat))
    (output_lines : list str) (indent_level : Z) (line_idx : nat)
    (line : str) (i : nat) :
  scan line line_idx protected = FoundClose i ->
  let depth := Z.max 0 (indent_level - 1) in
  let after := drop (i + 1) line in
  (line !! i = Some close_brace
   /\ is_scoping_close_brace line i line_idx protected = true)
  /\ 0 <= depth
  /\ process_line protected (output_lines, indent_level) (line_idx, line)
     = (match find hash after with
        | Some k =>
            output_lines
              ++ [replicate (Z.to_nat (4 * depth)) (ord " ") ++ drop k after]
        | None => output_lines
        end, depth)
  /\ forall (lines : list str) (k : nat),
       0 <= (state_after protected lines k).2.
Proof.
  intros Hscan depth after. split; [by apply scan_FoundClose|].
  split; [lia|]. split.
  - unfold process_line. rewrite Hscan. fold depth after.
    rewrite comment_starts_at_first_hash, indent_is_four_spaces_per_level.
    destruct (find hash after) as [k|] eqn:F; [|done].
    by destruct (find_drop _ _ _ F) as [t ->].
  - intros lines k. by apply foldl_process_depth.
Qed.

(** C9 (amended): when the scan of a line stops at a scoping open brace,
    the emitted header is the text before the brace without its trailing
    white space, followed by the comment if there is one; the depth takes
    no part in it: a non-empty header keeps the leading white space the
    source line has, and a comment alone starts at column 0.  The depth
    becomes [depth + 1]. *)
Theorem scoping_open_keeps_own_indentation (protected : gset (nat * nat))
    (output_lines : list str) (indent_level : Z) (line_idx : nat)
    (line : str) (i : nat) :
  scan line line_idx protected = FoundOpen i ->
  let header := rstrip (take i line) in
  let comment := extract_comment_after_brace (drop (i + 1) line) in
  let emitted :=
    header ++ (if truthy comment
               then (if truthy header then py "  " else []) ++ comment
               else []) in
  process_line protected (output_lines, indent_level) (line_idx, line)
  = (if truthy header || truthy comment
     then output_lines ++ [emitted] else output_lines,
     indent_level + 1)
  /\ (truthy header = true -> leading_space emitted = leading_space line)
  /\ (truthy header = false -> leading_space emitted = []).
Proof.
  intros Hscan header comment emitted. split; [|split].
  - unfold process_line. rewrite Hscan. fold header comment.
    subst emitted. destruct (truthy comment); [done|].
    by rewrite app_nil_r.
  - intros H. subst emitted.
    rewrite leading_space_app by by apply rstrip_visible.
    by apply leading_space_header.
  - intros H. subst emitted. destruct header; [|done]. simpl.
    destruct (truthy comment) eqn:C; [|done].
    destruct (extract_comment_hash _ C) as [t Ht]. fold comment in Ht.
    by rewrite Ht.
Qed.

(** ** Only the protection of brace coordinates matters *)

Lemma open_brace_agree (line : list N) (pos idx : nat)
    (p p' : gset (nat * nat)) :
  agree p p' (idx, pos) ->
  is_scoping_open_brace line pos idx p = is_scoping_open_brace line pos idx p'.
Proof.
  intros H. unfold is_scoping_open_brace.
  by rewrite (bool_decide_ext _ _ H).
Qed.

Lemma close_brace_agree (line : list N) (pos idx : nat)
    (p p' : gset (nat * nat)) :
  agree p p' (idx, pos) ->
  is_scoping_close_brace line pos idx p = is_scoping_close_brace line pos idx p'.
Proof.
  intros H. unfold is_scoping_close_brace.
  by rewrite (bool_decide_ext _ _ H).
Qed.

Lemma scan_from_agree (line : list N) (idx : nat)
    (p p' : gset (nat * nat)) (rest : list N) (j : nat) :
  Forall (agree p p')
    ((fun pc : nat * N => (idx, pc.1))
       <$> List.filter (fun pc : nat * N => is_brace pc.2)
                       (enumerate_from j rest)) ->
  scan_from line idx p j rest = scan_from line idx p' j rest.
Proof.
  revert j. induction rest as [|c rest IH]; intros j; [done|].
  cbn [enumerate_from List.filter scan_from snd].
  unfold is_brace at 1.
  destruct (c =? open_brace)%N eqn:O; [|destruct (c =? close_brace)%N eqn:C];
    cbn [orb andb fmap list_fmap fst].
  - intros [H1 H2]%Forall_cons. rewrite (open_brace_agree _ _ _ _ _ H1).
    destruct (is_scoping_open_brace line j idx p'); [done|].
    apply N.eqb_eq in O. subst c. by apply IH.
  - intros [H1 H2]%Forall_cons.
    rewrite (close_brace_agree _ _ _ _ _ H1).
    destruct (is_scoping_close_brace line j idx p'); [done | by apply IH].
  - apply IH.
Qed.

Lemma process_line_agree (p p' : gset (nat * nat))
    (st : list (list N) * Z) (idx : nat) (line : list N) :
  Forall (agree p p') (braces_of_line idx line) ->
  process_line p st (idx, line) = process_line p' st (idx, line).
Proof.
  intros H. unfold process_line, scan.
  by rewrite (scan_from_agree line idx p p' line 0 H).
Qed.

Lemma main_loop_agree (p p' : gset (nat * nat)) (lines : list (list N))
    (n : nat) (st : list (list N) * Z) :
  Forall (agree p p')
    (flat_map (fun il : nat * list N => braces_of_line il.1 il.2)
              (enumerate_from n lines)) ->
  foldl (process_line p) st (enumerate_from n lines)
  = foldl (process_line p') st (enumerate_from n lines).
Proof.
  revert n st. induction lines as [|line lines IH]; intros n st; [done|].
  cbn [enumerate_from flat_map foldl fst snd].
  intros [H1 H2]%Forall_app.
  rewrite (process_line_agree p p' st n line H1). by apply IH.
Qed.

Lemma convert_lines_agree (p p' : gset (nat * nat)) (code : list N) :
  Forall (agree p p') (brace_positions (splitlines code)) ->
  convert_lines p code = convert_lines p' code.
Proof.
  intros H. unfold convert_lines, enumerate.
  by rewrite (main_loop_agree p p' _ 0 _ H).
Qed.

(** ** The scenarios *)

(** C4 (amended): on the input of scenario 2, whenever the tokenizer
    protects neither brace, the conversion returns the header, the body
    and then the comment at column 0: [# done] is not indented. *)
Theorem scenario2_comment_is_not_indented
    (generate_tokens : str -> token_run) (protected : gset (nat * nat)) :
  get_protected_positions generate_tokens scenario2 = Ok protected ->
  (0%nat, 6%nat) ∉ protected -> (2%nat, 0%nat) ∉ protected ->
  convert_curly_to_indented generate_tokens scenario2 = Ok scenario2_actual.
Proof.
  intros Hprot H1 H2. unfold convert_curly_to_indented.
  replace (negb (truthy (strip scenario2))) with false
    by (vm_compute; reflexivity).
  rewrite Hprot. f_equal.
  rewrite (convert_lines_agree protected ∅); [vm_compute; reflexivity|].
  replace (brace_positions (splitlines scenario2))
    with [(0%nat, 6%nat); (2%nat, 0%nat)] by (vm_compute; reflexivity).
  repeat constructor; unfold agree; set_solver.
Qed.

(** Under no protected set at all does the text claimed by scenario 2
    come out. *)
Lemma scenario2_never_as_claimed (protected : gset (nat * nat)) :
  convert_lines protected scenario2 <> scenario2_claimed.
Proof.
  set (p' := (if decide ((0%nat, 6%nat) ∈ protected)
              then {[ (0%nat, 6%nat) ]} else ∅)
             ∪ (if decide ((2%nat, 0%nat) ∈ protected)
                then {[ (2%nat, 0%nat) ]} else ∅) : gset (nat * nat)).
  rewrite (convert_lines_agree protected p').
  - subst p'.
    destruct (decide _); destruct (decide _);
      (intros H; apply (bool_decide_eq_true_2 _) in H; vm_compute in H;
       discriminate H).
  - replace (brace_positions (splitlines scenario2))
      with [(0%nat, 6%nat); (2%nat, 0%nat)] by (vm_compute; reflexivity).
    subst p'. unfold agree.
    destruct (decide _); destruct (decide _); repeat constructor;
      set_unfold; intuition congruence.
Qed.

(** C1: on an input whose dedent matches no enclosing block the
    tokenizer raises [IndentationError], which the protector does not
    handle: it raises, and so does the conversion. *)
Theorem bad_dedent_makes_convert_raise :
  handled IndentationError = false
  /\ get_protected_positions (tokenizer_of bad_dedent_run) bad_dedent_input
     = Raise IndentationError
  /\ convert_curly_to_indented (tokenizer_of bad_dedent_run) bad_dedent_input
     = Raise IndentationError.
Proof. by_evaluation. Qed.

(** C2, at a brace inside a comment: unprotected it would be a scoping
    open brace (it follows a colon), protected it is not. *)
Lemma comment_brace_is_not_scoping :
  (0%nat, 3%nat) ∈ comment_positions
  /\ is_scoping_open_brace comment_line 3 0 ∅ = true
  /\ is_scoping_open_brace comment_line 3 0 comment_positions = false
  /\ is_scoping_close_brace comment_line 3 0 comment_positions = false
  /\ scan comment_line 0 comment_positions <> FoundOpen 3
  /\ scan comment_line 0 comment_positions <> FoundClose 3.
Proof.
  assert (H : (0%nat, 3%nat) ∈ comment_positions)
    by (apply (bool_decide_unpack _); vm_compute; exact I).
  split; [exact H|]. split; [vm_compute; reflexivity|].
  exact (protected_brace_is_never_scoping comment_line 3 0 comment_positions H).
Defined.

(** C3 as stated fails: without any brace, an indented block loses its
    indentation, and of three blank lines in a row two are dropped, so the
    lines are not the same even leading white space apart. *)
Lemma unbraced_text_is_changed :
  (no_scoping_braces ∅ (splitlines indented_input) = true
   /\ convert_curly_to_indented (tokenizer_of indented_run) indented_input
      = Ok indented_output
   /\ bool_decide (indented_output = indented_input) = false)
  /\ (no_scoping_braces ∅ (splitlines blank_run_input) = true
      /\ convert_curly_to_indented (tokenizer_of blank_run_run)
           blank_run_input = Ok blank_run_output
      /\ same_content blank_run_output blank_run_input = false).
Proof. by_evaluation. Qed.

(** C3 (amended), at an indented block with a run of blank lines and a
    comment whose brace would be scoping if it were not protected: the
    indentation goes, the run collapses, the comment stays. *)
Lemma indented_text_is_flattened :
  trivial flattened_input = false
  /\ get_protected_positions (tokenizer_of flattened_run) flattened_input
     = Ok flattened_positions
  /\ no_scoping_braces flattened_positions (splitlines flattened_input) = true
  /\ no_scoping_braces ∅ (splitlines flattened_input) = false
  /\ convert_curly_to_indented (tokenizer_of flattened_run) flattened_input
     = Ok flattened_output
  /\ state_after flattened_positions (splitlines flattened_input) 5
     = ([py "if x:"; py "# note: {"; []; []; py "y()"], 0).
Proof.
  assert (H1 : trivial flattened_input = false) by (vm_compute; reflexivity).
  assert (H2 : get_protected_positions (tokenizer_of flattened_run)
                 flattened_input = Ok flattened_positions) by reflexivity.
  assert (H3 : no_scoping_braces flattened_positions
                 (splitlines flattened_input) = true)
    by (vm_compute; reflexivity).
  split; [exact H1|]. split; [exact H2|]. split; [exact H3|].
  split; [vm_compute; reflexivity|].
  destruct (unbraced_text_passes_through (tokenizer_of flattened_run)
              flattened_input flattened_positions H1 H2 H3) as [-> Hk].
  split; [vm_compute; reflexivity|].
  rewrite (Hk 5%nat). vm_compute; reflexivity.
Defined.

(** C4 as stated fails: with the tokens Python yields, the comment of
    scenario 2 comes out at column 0, not behind four spaces. *)
Lemma scenario2_is_not_as_claimed :
  convert_curly_to_indented (tokenizer_of scenario2_run) scenario2
  = Ok scenario2_actual
  /\ bool_decide (scenario2_actual = scenario2_claimed) = false.
Proof. by_evaluation. Qed.

(** C4 (amended), with the tokens Python yields on scenario 2. *)
Lemma scenario2_with_python_tokens :
  (((0%nat, 6%nat) ∉ scenario2_positions)
   /\ ((2%nat, 0%nat) ∉ scenario2_positions))
  /\ convert_curly_to_indented (tokenizer_of scenario2_run) scenario2
     = Ok scenario2_actual.
Proof.
  assert (H1 : (0%nat, 6%nat) ∉ scenario2_positions)
    by (apply (bool_decide_eq_false_1 _); vm_compute; reflexivity).
  assert (H2 : (2%nat, 0%nat) ∉ scenario2_positions)
    by (apply (bool_decide_eq_false_1 _); vm_compute; reflexivity).
  split; [by split|].
  exact (scenario2_comment_is_not_indented (tokenizer_of scenario2_run)
           scenario2_positions eq_refl H1 H2).
Defined.

(** C5, at a close brace with a comment: met at depth 3 the comment comes
    out behind eight spaces, at depth 2; met at depth 0 the depth stays 0
    and the comment comes out at column 0. *)
Lemma close_brace_comment_is_indented :
  scan close_line 2 ∅ = FoundClose 0
  /\ process_line ∅ ([py "x"], 3) (2%nat, close_line)
     = ([py "x"; py "        # end"], 2)
  /\ process_line ∅ ([py "x"], 0) (2%nat, close_line)
     = ([py "x"; py "# end"], 0).
Proof.
  assert (H : scan close_line 2 ∅ = FoundClose 0) by (vm_compute; reflexivity).
  split; [exact H|].
  destruct (scoping_close_floors_depth ∅ [py "x"] 3 2 close_line 0 H)
    as (_ & _ & -> & _).
  destruct (scoping_close_floors_depth ∅ [py "x"] 0 2 close_line 0 H)
    as (_ & _ & -> & _).
  split; vm_compute; reflexivity.
Defined.

(** C6 as stated fails: trivial input is returned as it is, blank lines
    included. *)
Lemma trivial_input_keeps_its_blank_lines :
  trivial only_newlines = true
  /\ convert_curly_to_indented (tokenizer_of only_newlines_run) only_newlines
     = Ok only_newlines
  /\ blank_pair (splitlines only_newlines) = true.
Proof. by_evaluation. Qed.

(** C6 (amended), at three blank lines in a row (scenario 4). *)
Lemma blank_run_is_collapsed :
  trivial blank_run_input = false
  /\ convert_curly_to_indented (tokenizer_of blank_run_run) blank_run_input
     = Ok blank_run_output
  /\ blank_pair (splitlines blank_run_output) = false.
Proof.
  assert (H1 : trivial blank_run_input = false) by (vm_compute; reflexivity).
  assert (H2 : convert_curly_to_indented (tokenizer_of blank_run_run)
                 blank_run_input = Ok blank_run_output)
    by (vm_compute; reflexivity).
  split; [exact H1|]. split; [exact H2|].
  exact (output_has_no_blank_pair (tokenizer_of blank_run_run)
           blank_run_input blank_run_output H1 H2).
Defined.

(** C7: the input ends with a space, not with a newline, and the
    converted text ends with a newline. *)
Theorem blank_last_line_adds_a_newline :
  convert_curly_to_indented (tokenizer_of trailing_space_run)
    trailing_space_input = Ok trailing_space_output
  /\ endswith trailing_space_input [LF] = false
  /\ endswith trailing_space_output [LF] = true.
Proof. by_evaluation. Qed.

(** C8: a line with no colon, on which code stands between the brace and
    a later comment, is classified as a scoping open brace (the close
    classifier rejects the same shape); the conversion then keeps the
    comment only. *)
Theorem code_after_open_brace_is_accepted :
  find colon code_after_brace_line = None
  /\ strip (drop 1 (strip code_after_brace_line)) = py "foo() # c"
  /\ is_scoping_open_brace code_after_brace_line 0 0 ∅ = true
  /\ is_scoping_close_brace (py "} foo() # c") 0 0 ∅ = false
  /\ convert_curly_to_indented (tokenizer_of code_after_brace_run)
       code_after_brace_input = Ok code_after_brace_output.
Proof. by_evaluation. Qed.

(** C9 as stated fails: the header of the inner block is recognised at
    depth 1 and emitted at column 0. *)
Lemma nested_header_is_not_indented :
  convert_curly_to_indented (tokenizer_of nested_run) nested_input
  = Ok nested_output
  /\ state_after ∅ (splitlines nested_input) 1 = ([py "if x:"], 1)
  /\ scan header_line 1 ∅ = FoundOpen 6
  /\ state_after ∅ (splitlines nested_input) 2 = ([py "if x:"; py "if y:"], 2)
  /\ at_depth 1 (py "if y:") = false.
Proof. by_evaluation. Qed.

(** C9 (amended), at the inner header of the nested blocks. *)
Lemma header_keeps_its_own_indentation :
  scan header_line 1 ∅ = FoundOpen 6
  /\ process_line ∅ ([py "if x:"], 1) (1%nat, header_line)
     = ([py "if x:"; py "if y:"], 2).
Proof.
  assert (H : scan header_line 1 ∅ = FoundOpen 6) by (vm_compute; reflexivity).
  split; [exact H|].
  destruct (scoping_open_keeps_own_indentation ∅ [py "if x:"] 1 1
              header_line 6 H) as (-> & _ & _).
  vm_compute; reflexivity.
Defined.

(** C10, at scenario 2. *)
Lemma scenario2_lines_are_visible :
  trivial scenario2 = false
  /\ Forall (fun l => empty_or_visible l = true) (splitlines scenario2_actual).
Proof.
  assert (H1 : trivial scenario2 = false) by (vm_compute; reflexivity).
  assert (H2 : convert_curly_to_indented (tokenizer_of scenario2_run)
                 scenario2 = Ok scenario2_actual)
    by (vm_compute; reflexivity).
  split; [exact H1|].
  exact (proj1 (output_lines_empty_or_visible (tokenizer_of scenario2_run)
                  scenario2 scenario2_actual H1 H2)).
Defined.

(** * Further properties *)

Import Coverage Shapes Passes Driver.

(** ** What the protector marks *)

Lemma elem_of_foldl_columns (line_idx : nat) (cs : list nat)
    (p : gset (nat * nat)) (q : nat * nat) :
  q ∈ foldl (fun p c => {[ (line_idx, c) ]} ∪ p) p cs
  <-> q ∈ p \/ (q.1 = line_idx /\ q.2 ∈ cs).
Proof.
  revert p. induction cs as [|c cs IH]; intros p; simpl.
  - split; [by left | intros [?|[_ H]]; [done | by apply elem_of_nil in H]].
  - rewrite IH, elem_of_union, elem_of_singleton, elem_of_cons.
    destruct q as [l k]. simpl.
    split; [intros [[[= -> ->]|?]|[? ?]] | intros [?|[<- [->|?]]]]; auto.
Qed.

Lemma elem_of_add_columns (line_idx s e : nat) (p : gset (nat * nat))
    (q : nat * nat) :
  q ∈ add_columns line_idx s e p
  <-> q ∈ p \/ (q.1 = line_idx /\ (s <= q.2 < e)%nat).
Proof.
  unfold add_columns. rewrite elem_of_foldl_columns, elem_of_seq.
  split; (intros [?|[? ?]]; [by left | right; split; [done | lia]]).
Qed.

Lemma elem_of_add_token_line (lines : list (list N)) (sl sc el ec : nat)
    (p : gset (nat * nat)) (line_idx : nat) (q : nat * nat) :
  q ∈ add_token_line lines sl sc el ec p line_idx
  <-> q ∈ p \/ (q.1 = line_idx /\ line_part lines sl sc el ec q).
Proof.
  unfold add_token_line, line_part.
  destruct (lines !! line_idx) as [line|] eqn:L.
  - destruct (line_idx =? sl)%nat eqn:E1; [|destruct (line_idx =? el)%nat eqn:E2];
      rewrite elem_of_add_columns;
      (split; intros [?|[<- H]]; [by left | right | by left | right]);
      try (split; [done|]; exists line; split; [done|]; rewrite ?E1, ?E2; lia);
      destruct H as (line' & L' & H); rewrite L in L'; injection L' as <-;
      rewrite ?E1, ?E2 in H; lia.
  - split; [by left|]. intros [?|[<- (line & L' & _)]]; [done | congruence].
Qed.

Lemma elem_of_foldl_token_lines (lines : list (list N)) (sl sc el ec : nat)
    (ls : list nat) (p : gset (nat * nat)) (q : nat * nat) :
  q ∈ foldl (add_token_line lines sl sc el ec) p ls
  <-> q ∈ p \/ (q.1 ∈ ls /\ line_part lines sl sc el ec q).
Proof.
  revert p. induction ls as [|l ls IH]; intros p; simpl.
  - split; [by left | intros [?|[H _]]; [done | by apply elem_of_nil in H]].
  - rewrite IH, elem_of_add_token_line, elem_of_cons.
    split; [intros [[?|[? ?]]|[? ?]] | intros [?|[[?|?] ?]]]; auto.
Qed.

Lemma elem_of_add_token (lines : list (list N)) (p : gset (nat * nat))
    (t : TokenInfo) (q : nat * nat) :
  q ∈ add_token lines p t <-> q ∈ p \/ protects lines t q.1 q.2 = true.
Proof.
  unfold add_token, protects, covers, start_line, end_line.
  destruct t as [ty [srow sc] [erow ec]]; simpl.
  destruct (is_string_or_comment ty); simpl;
    [|split; [by left | by intros [?|?]]].
  set (sl := (Pos.to_nat srow - 1)%nat). set (el := (Pos.to_nat erow - 1)%nat).
  destruct (sl =? el)%nat eqn:E.
  - rewrite elem_of_add_columns.
    rewrite !andb_true_iff, Nat.eqb_eq, Nat.leb_le, Nat.ltb_lt.
    split; (intros [?|?]; [by left | right; intuition]).
  - rewrite elem_of_foldl_token_lines, elem_of_seq. unfold line_part.
    rewrite !andb_true_iff, !Nat.leb_le.
    split; (intros [?|H]; [by left | right]).
    + destruct H as [Hr (line & -> & H)]. split; [lia|].
      destruct (q.1 =? sl)%nat; [|destruct (q.1 =? el)%nat];
        rewrite ?andb_true_iff, ?Nat.leb_le, ?Nat.ltb_lt; lia.
    + destruct H as [Hr H]. split; [lia|].
      destruct (lines !! q.1) as [line|]; [|done]. exists line. split; [done|].
      destruct (q.1 =? sl)%nat; [|destruct (q.1 =? el)%nat];
        rewrite ?andb_true_iff, ?Nat.leb_le, ?Nat.ltb_lt in H; lia.
Qed.

Lemma elem_of_foldl_tokens (lines : list (list N)) (ts : list TokenInfo)
    (p : gset (nat * nat)) (q : nat * nat) :
  q ∈ foldl (add_token lines) p ts
  <-> q ∈ p \/ exists t, t ∈ ts /\ protects lines t q.1 q.2 = true.
Proof.
  revert p. induction ts as [|t ts IH]; intros p; simpl.
  - split; [by left | intros [?|(t & H & _)]; [done | by apply elem_of_nil in H]].
  - rewrite IH, elem_of_add_token. split.
    + intros [[?|?]|(t' & ? & ?)]; [by left | right..].
      * exists t. split; [by left | done].
      * exists t'. split; [by right | done].
    + intros [?|(t' & [->|?]%elem_of_cons & ?)]; [by do 2 left | |].
      * left. by right.
      * right. by exists t'.
Qed.

(** X1: when the protector returns, a coordinate is protected exactly
    when a yielded string or comment token covers it: its own columns on
    one line, and over several lines the rest of the first line, the
    whole of the lines between and the last line up to its end column,
    each within the line's length. *)
Theorem protected_iff_inside_a_token (generate_tokens : list N -> token_run)
    (code : list N) (protected : gset (nat * nat)) (l c : nat) :
  get_protected_positions generate_tokens code = Ok protected ->
  (l, c) ∈ protected
  <-> exists t, t ∈ yielded (generate_tokens code)
                /\ protects (splitlines_keepends code) t l c = true.
Proof.
  unfold get_protected_positions. intros H.
  assert (protected = foldl (add_token (splitlines_keepends code)) ∅
                            (yielded (generate_tokens code))) as ->.
  { destruct (raised _) as [e|]; [destruct (handled e)|]; congruence. }
  rewrite elem_of_foldl_tokens.
  split; [intros [H'|?]; [by apply not_elem_of_empty in H' | done] | by right].
Qed.

(** ** More on stripping *)

Lemma lstrip_app_blank (ws s : list N) :
  blank ws = true -> lstrip (ws ++ s) = lstrip s.
Proof.
  induction ws as [|c ws IH]; simpl; [done|].
  intros [-> H]%andb_true_iff. by apply IH.
Qed.

Lemma lstrip_nonspace (c : N) (s : list N) :
  isspace c = false -> lstrip (c :: s) = c :: s.
Proof. intros H. simpl. by rewrite H. Qed.

Lemma lstrip_snoc (y : list N) (c : N) :
  lstrip (y ++ [c]) = if truthy (lstrip y) then lstrip y ++ [c] else lstrip [c].
Proof.
  induction y as [|x y IH]; [done|]. simpl.
  destruct (isspace x); [exact IH | done].
Qed.

(** [rstrip], read from the front. *)
Lemma rstrip_cons (c : N) (x : list N) :
  rstrip (c :: x)
  = if truthy (rstrip x) || negb (isspace c) then c :: rstrip x else [].
Proof.
  unfold rstrip. simpl. rewrite lstrip_snoc.
  destruct (lstrip (rev x)) as [|a l] eqn:E; simpl.
  - by destruct (isspace c).
  - rewrite rev_app_distr. simpl.
    destruct (rev l ++ [a]) eqn:F; [by destruct (rev l)|done].
Qed.

Lemma rstrip_blank (ws : list N) : blank ws = true -> rstrip ws = [].
Proof.
  induction ws as [|c ws IH]; [done|]. simpl.
  intros [Hc H]%andb_true_iff. rewrite rstrip_cons, (IH H), Hc. done.
Qed.

Lemma rstrip_nonspace (c : N) (x : list N) :
  isspace c = false -> rstrip (c :: x) = c :: rstrip x.
Proof. intros H. rewrite rstrip_cons, H. by rewrite orb_true_r. Qed.

Lemma rstrip_app (a b : list N) :
  truthy (rstrip b) = true -> rstrip (a ++ b) = a ++ rstrip b.
Proof.
  intros H. induction a as [|c a IH]; [done|]. simpl.
  rewrite rstrip_cons, IH. by destruct (a ++ rstrip b) eqn:E; [destruct a, (rstrip b)|].
Qed.

Lemma rstrip_app_blank (s ws : list N) :
  blank ws = true -> rstrip (s ++ ws) = rstrip s.
Proof.
  intros H. induction s as [|c s IH]; simpl; [by apply rstrip_blank|].
  by rewrite !rstrip_cons, IH.
Qed.

Lemma blank_app (a b : list N) : blank (a ++ b) = blank a && blank b.
Proof. apply forallb_app. Qed.

Lemma find_blank (c : N) (ws : list N) :
  isspace c = false -> blank ws = true -> find c ws = None.
Proof.
  intros Hc. induction ws as [|x ws IH]; [done|]. simpl.
  intros [Hx H]%andb_true_iff.
  destruct (N.eqb_spec x c) as [->|_]; [congruence|]. by rewrite IH.
Qed.

Lemma find_app_None (c : N) (a b : list N) :
  find c a = None -> find c (a ++ b) = (fun k => (length a + k)%nat) <$> find c b.
Proof.
  induction a as [|x a IH]; simpl.
  - intros _. by destruct (find c b).
  - destruct (x =? c)%N; [done|].
    destruct (find c a) eqn:E; [done|]. intros _. rewrite IH by done.
    by destruct (find c b).
Qed.

Lemma find_here (c : N) (s : list N) : find c (c :: s) = Some 0%nat.
Proof. simpl. by rewrite N.eqb_refl. Qed.

Lemma rfind_last (c : N) (head ws : list N) :
  find c ws = None ->
  rfind c (head ++ [c] ++ ws) = Some (length head).
Proof.
  intros H. unfold rfind.
  rewrite !rev_app_distr. simpl. rewrite <- app_assoc. simpl.
  rewrite find_app_None.
  - rewrite find_here. simpl. f_equal.
    rewrite !length_app, length_rev. simpl. lia.
  - clear -H. revert H. induction ws as [|x ws IH]; [done|]. simpl.
    destruct (N.eqb_spec x c) as [->|Hne]; [done|].
    destruct (find c ws) eqn:E; [done|]. intros _.
    rewrite find_app_None by by apply IH. simpl.
    by destruct (N.eqb_spec x c).
Qed.

Lemma rfind_blank (c : N) (ws : list N) :
  isspace c = false -> blank ws = true -> rfind c ws = None.
Proof.
  intros Hc H. unfold rfind. rewrite find_blank; [done | done |].
  unfold blank in *. rewrite forallb_forall in *. intros x Hx. apply H.
  by apply in_rev.
Qed.

(** ** The comment after a brace *)

Lemma extract_comment_cons_space (c : N) (t : list N) :
  isspace c = true ->
  extract_comment_after_brace (c :: t) = extract_comment_after_brace t.
Proof. intros H. unfold extract_comment_after_brace. simpl. by rewrite H. Qed.

Lemma extract_comment_at_hash (r : list N) :
  extract_comment_after_brace (hash :: r) = hash :: r.
Proof. reflexivity. Qed.

Lemma extract_comment_blank_prefix (ws t : list N) :
  blank ws = true ->
  extract_comment_after_brace (ws ++ t) = extract_comment_after_brace t.
Proof.
  intros H. unfold extract_comment_after_brace. by rewrite lstrip_app_blank.
Qed.

Lemma extract_comment_blank (ws : list N) :
  blank ws = true -> extract_comment_after_brace ws = [].
Proof.
  intros H. unfold extract_comment_after_brace. by rewrite lstrip_blank.
Qed.

(** X2: the comment is the text from its first [#] on, white space
    before it or not, and it is empty exactly when there is no [#]. *)
Theorem comment_is_text_from_first_hash (text : list N) :
  extract_comment_after_brace text
  = match find hash text with
    | Some k => drop k text
    | None => []
    end
  /\ (extract_comment_after_brace text = [] <-> find hash text = None).
Proof.
  assert (H : extract_comment_after_brace text
              = match find hash text with
                | Some k => drop k text
                | None => []
                end).
  { induction text as [|c t IH]; [done|].
    destruct (isspace c) eqn:S.
    - rewrite extract_comment_cons_space by done. rewrite IH. simpl.
      destruct (N.eqb_spec c hash) as [->|_]; [done|].
      by destruct (find hash t).
    - unfold extract_comment_after_brace. rewrite lstrip_nonspace by done.
      simpl. destruct (N.eqb_spec c hash) as [->|_]; [done|]. simpl.
      by destruct (find hash t). }
  split; [exact H|]. rewrite H.
  destruct (find hash text) as [k|] eqn:F; [|done].
  destruct (find_drop _ _ _ F) as [t ->]. done.
Qed.

(** X3: extracting the comment of a comment gives it back, and a comment
    that is not empty starts with [#]. *)
Theorem comment_extraction_is_idempotent (text : list N) :
  extract_comment_after_brace (extract_comment_after_brace text)
  = extract_comment_after_brace text
  /\ (extract_comment_after_brace text = []
      \/ exists r, extract_comment_after_brace text = hash :: r).
Proof.
  destruct (truthy (extract_comment_after_brace text)) eqn:T.
  - destruct (extract_comment_hash _ T) as [r ->].
    split; [apply extract_comment_at_hash | right; by exists r].
  - destruct (extract_comment_after_brace text); [|done].
    split; [done | by left].
Qed.

(** ** Lines of a known shape *)

Lemma scan_from_skip (line : list N) (idx : nat) (p : gset (nat * nat))
    (j : nat) (pre rest : list N) :
  no_brace pre = true ->
  scan_from line idx p j (pre ++ rest)
  = scan_from line idx p (j + length pre) rest.
Proof.
  revert j. induction pre as [|c pre IH]; intros j; simpl.
  - intros _. by rewrite Nat.add_0_r.
  - intros [Hc H]%andb_true_iff. unfold is_brace in Hc.
    apply negb_true_iff, orb_false_elim in Hc as [-> ->]. simpl.
    rewrite IH by done. f_equal. lia.
Qed.

Lemma blank_no_brace (ws : list N) : blank ws = true -> no_brace ws = true.
Proof.
  induction ws as [|c ws IH]; [done|]. simpl.
  intros [Hc H]%andb_true_iff. rewrite IH by done.
  unfold is_brace. by destruct (space_is_no_brace c Hc) as [-> ->].
Qed.

Lemma comment_or_nothing_cases (s : list N) :
  comment_or_nothing s = true -> s = [] \/ exists r, s = hash :: r.
Proof.
  destruct s as [|c r]; [by left|]. simpl. intros ->%N.eqb_eq. right. by eexists.
Qed.

Lemma extract_comment_tail (ws s : list N) :
  blank ws = true -> comment_or_nothing s = true ->
  extract_comment_after_brace (ws ++ s) = s.
Proof.
  intros Hws [->|[r ->]]%comment_or_nothing_cases.
  - rewrite app_nil_r. by apply extract_comment_blank.
  - by rewrite extract_comment_blank_prefix.
Qed.

(** After a brace, white space and then nothing or a comment: stripped on
    the right, that tail is empty or starts, after white space, with [#]. *)
Lemma rstrip_tail (ws s : list N) :
  blank ws = true -> comment_or_nothing s = true ->
  (s = [] /\ rstrip (ws ++ s) = [])
  \/ (exists r, s = hash :: r /\ rstrip (ws ++ s) = ws ++ hash :: rstrip r).
Proof.
  intros Hws [->|[r ->]]%comment_or_nothing_cases.
  - left. rewrite app_nil_r. split; [done | by apply rstrip_blank].
  - right. exists r. split; [done|].
    rewrite rstrip_app; by rewrite (rstrip_nonspace hash).
Qed.

Lemma tail_is_clean (ws s : list N) :
  blank ws = true -> comment_or_nothing s = true ->
  negb (truthy (strip (ws ++ s))) || startswith (strip (ws ++ s)) [hash]
  = true.
Proof.
  intros Hws Hs. unfold strip.
  destruct (rstrip_tail ws s Hws Hs) as [[-> ->]|(r & -> & ->)]; [done|].
  by rewrite lstrip_app_blank.
Qed.

Lemma strip_brace_line (ws ws' s : list N) (b : N) :
  isspace b = false -> blank ws = true ->
  strip (ws ++ [b] ++ ws' ++ s) = b :: rstrip (ws' ++ s).
Proof.
  intros Hb Hws. unfold strip. simpl.
  rewrite rstrip_app; rewrite (rstrip_nonspace b) by done; [|done].
  rewrite lstrip_app_blank by done. by apply lstrip_nonspace.
Qed.

(** A closing brace alone on its line. *)

Lemma close_brace_line_scan (protected : gset (nat * nat)) (line_idx : nat)
    (ws ws' comment : list N) :
  blank ws = true -> blank ws' = true -> comment_or_nothing comment = true ->
  (line_idx, length ws) ∉ protected ->
  scan (ws ++ [close_brace] ++ ws' ++ comment) line_idx protected
  = FoundClose (length ws).
Proof.
  intros Hws Hws' Hc Hp.
  set (line := ws ++ [close_brace] ++ ws' ++ comment).
  assert (Hclose : is_scoping_close_brace line (length ws) line_idx protected
                   = true).
  { unfold is_scoping_close_brace. rewrite bool_decide_eq_false_2 by done.
    unfold line. rewrite strip_brace_line by done.
    destruct (rstrip_tail ws' comment Hws' Hc) as [[-> ->]|(r & -> & ->)].
    - by rewrite bool_decide_eq_true_2.
    - destruct (bool_decide _); [done|].
      cbn [startswith skipn]. rewrite drop_0, N.eqb_refl.
      by rewrite lstrip_app_blank. }
  unfold scan. unfold line at 2.
  rewrite scan_from_skip by by apply blank_no_brace.
  simpl. by rewrite Hclose.
Qed.

Lemma close_brace_line_step (protected : gset (nat * nat))
    (output_lines : list (list N)) (indent_level : Z) (line_idx : nat)
    (ws ws' comment : list N) :
  blank ws = true -> blank ws' = true -> comment_or_nothing comment = true ->
  (line_idx, length ws) ∉ protected ->
  process_line protected (output_lines, indent_level)
    (line_idx, ws ++ [close_brace] ++ ws' ++ comment)
  = (if truthy comment
     then output_lines
            ++ [mul indent_unit (Z.max 0 (indent_level - 1)) ++ comment]
     else output_lines, Z.max 0 (indent_level - 1)).
Proof.
  intros Hws Hws' Hc Hp. unfold process_line.
  rewrite close_brace_line_scan by done.
  replace (drop (length ws + 1) (ws ++ [close_brace] ++ ws' ++ comment))
    with (ws' ++ comment) by (by rewrite <- drop_drop, drop_app_length).
  rewrite extract_comment_tail by done. by destruct (truthy comment).
Qed.

(** X6: an unprotected opening brace alone on its line, white space
    around it and a comment or nothing behind it, emits the comment alone
    or nothing, and the depth grows by one. *)
Theorem open_brace_line_only_deepens (protected : gset (nat * nat))
    (output_lines : list (list N)) (indent_level : Z) (line_idx : nat)
    (ws ws' comment : list N) :
  blank ws = true -> blank ws' = true -> comment_or_nothing comment = true ->
  (line_idx, length ws) ∉ protected ->
  process_line protected (output_lines, indent_level)
    (line_idx, ws ++ [open_brace] ++ ws' ++ comment)
  = (if truthy comment then output_lines ++ [comment] else output_lines,
     indent_level + 1).
Proof.
  intros Hws Hws' Hc Hp.
  set (line := ws ++ [open_brace] ++ ws' ++ comment).
  assert (Hopen : is_scoping_open_brace line (length ws) line_idx protected
                  = true).
  { unfold is_scoping_open_brace. rewrite bool_decide_eq_false_2 by done.
    unfold line at 1. rewrite take_app_length, rfind_blank by done.
    unfold line. rewrite strip_brace_line by done.
    destruct (rstrip_tail ws' comment Hws' Hc) as [[-> ->]|(r & -> & ->)].
    - by rewrite bool_decide_eq_true_2.
    - destruct (bool_decide _); [done|].
      cbn [startswith skipn orb]. rewrite drop_0, N.eqb_refl.
      by rewrite extract_comment_blank_prefix. }
  assert (Hscan : scan line line_idx protected = FoundOpen (length ws)).
  { unfold scan. unfold line at 2.
    rewrite scan_from_skip by by apply blank_no_brace.
    simpl. by rewrite Hopen. }
  unfold process_line. rewrite Hscan.
  replace (drop (length ws + 1) line) with (ws' ++ comment)
    by (unfold line; by rewrite <- drop_drop, drop_app_length).
  assert (Hbefore : rstrip (take (length ws) line) = [])
    by (unfold line; rewrite take_app_length; by apply rstrip_blank).
  rewrite !Hbefore, extract_comment_tail by done.
  by destruct (truthy comment).
Qed.

(** A header that ends in a colon, then the opening brace. *)

Lemma colon_brace_line_scan (protected : gset (nat * nat)) (line_idx : nat)
    (header ws ws' comment : list N) :
  no_brace header = true ->
  blank ws = true -> blank ws' = true -> comment_or_nothing comment = true ->
  (line_idx, length (header ++ [colon] ++ ws)) ∉ protected ->
  scan ((header ++ [colon] ++ ws) ++ [open_brace] ++ ws' ++ comment)
       line_idx protected
  = FoundOpen (length (header ++ [colon] ++ ws)).
Proof.
  intros Hh Hws Hws' Hc Hp.
  set (before := header ++ [colon] ++ ws) in *.
  set (line := before ++ [open_brace] ++ ws' ++ comment).
  assert (Hafter : drop (length before + 1) line = ws' ++ comment)
    by (unfold line; by rewrite <- drop_drop, drop_app_length).
  assert (Hopen : is_scoping_open_brace line (length before) line_idx protected
                  = true).
  { unfold is_scoping_open_brace. rewrite bool_decide_eq_false_2 by done.
    rewrite Hafter.
    replace (take (length before) line) with before
      by (unfold line; by rewrite take_app_length).
    unfold before at 1. rewrite rfind_last by by apply find_blank.
    cbv beta iota zeta.
    replace (drop (length header + 1) before) with ws
      by (unfold before; rewrite <- drop_drop, drop_app_length; done).
    unfold strip at 1. rewrite rstrip_blank by done. cbn [lstrip truthy].
    by rewrite tail_is_clean. }
  unfold scan. unfold line at 2. rewrite scan_from_skip.
  - simpl. by rewrite Hopen.
  - unfold before, no_brace. rewrite !forallb_app. fold (no_brace header).
    fold (no_brace ws). rewrite Hh, (blank_no_brace ws Hws). done.
Qed.

Lemma colon_brace_line_step (protected : gset (nat * nat))
    (output_lines : list (list N)) (indent_level : Z) (line_idx : nat)
    (header ws ws' comment : list N) :
  no_brace header = true ->
  blank ws = true -> blank ws' = true -> comment_or_nothing comment = true ->
  (line_idx, length (header ++ [colon] ++ ws)) ∉ protected ->
  process_line protected (output_lines, indent_level)
    (line_idx, (header ++ [colon] ++ ws) ++ [open_brace] ++ ws' ++ comment)
  = (output_lines
       ++ [header ++ [colon]
           ++ (if truthy comment then py "  " ++ comment else [])],
     indent_level + 1).
Proof.
  intros Hh Hws Hws' Hc Hp. unfold process_line.
  rewrite colon_brace_line_scan by done.
  set (before := header ++ [colon] ++ ws) in *.
  set (line := before ++ [open_brace] ++ ws' ++ comment).
  assert (Hafter : drop (length before + 1) line = ws' ++ comment)
    by (unfold line; by rewrite <- drop_drop, drop_app_length).
  assert (Hbefore : rstrip (take (length before) line) = header ++ [colon]).
  { unfold line. rewrite take_app_length. unfold before.
    rewrite app_assoc, rstrip_app_blank by done.
    by rewrite rstrip_app. }
  rewrite Hafter, !Hbefore.
  rewrite extract_comment_tail by done.
  replace (truthy (header ++ [colon])) with true by by destruct header.
  cbn [orb]. destruct (truthy comment); [|by rewrite app_nil_r].
  by rewrite <- !app_assoc.
Qed.

(** A line with no scoping brace. *)
Lemma leading_space_indent (d : Z) (s : list N) :
  truthy (lstrip s) = true ->
  leading_space (mul indent_unit d ++ lstrip s) = mul indent_unit d
  /\ lstrip (mul indent_unit d ++ lstrip s) = lstrip s.
Proof.
  intros H. destruct (lstrip s) as [|c t] eqn:E; [done|].
  pose proof (lstrip_head _ _ _ E) as Hc.
  unfold mul. induction (Z.to_nat d) as [|n [IH1 IH2]]; simpl.
  - by rewrite Hc.
  - split; [by rewrite IH1 | exact IH2].
Qed.

(** X9: a line on which the scan finds no scoping brace and which is not
    blank is emitted once, indented by exactly the current depth, its
    content after the indentation unchanged; the depth stays. *)
Theorem regular_line_is_reindented (protected : gset (nat * nat))
    (output_lines : list (list N)) (indent_level : Z) (line_idx : nat)
    (line : list N) :
  scan line line_idx protected = NotFound ->
  truthy (lstrip line) = true ->
  exists emitted,
    process_line protected (output_lines, indent_level) (line_idx, line)
    = (output_lines ++ [emitted], indent_level)
    /\ leading_space emitted = mul indent_unit indent_level
    /\ lstrip emitted = lstrip line.
Proof.
  intros Hscan Hs. exists (mul indent_unit indent_level ++ lstrip line).
  split.
  - unfold process_line. by rewrite Hscan, Hs.
  - by apply leading_space_indent.
Qed.

(** The scan stops at the first accepted brace. *)
Lemma accepted_brace_cons (p : gset (nat * nat)) (idx : nat) (line : list N)
    (j : nat) (c : N) (rest : list N) :
  drop j line = c :: rest ->
  accepted_brace p idx line j
  = (c =? open_brace)%N && is_scoping_open_brace line j idx p
    || (c =? close_brace)%N && is_scoping_close_brace line j idx p.
Proof.
  intros H. unfold accepted_brace.
  assert (line !! j = Some c) as ->; [|done].
  rewrite <- (Nat.add_0_r j), <- lookup_drop, H. done.
Qed.

Lemma scan_from_first (p : gset (nat * nat)) (idx : nat) (line : list N)
    (j : nat) (rest : list N) :
  drop j line = rest ->
  match scan_from line idx p j rest with
  | FoundOpen i =>
      line !! i = Some open_brace /\ accepted_brace p idx line i = true
      /\ forall k, (j <= k < i)%nat -> accepted_brace p idx line k = false
  | FoundClose i =>
      line !! i = Some close_brace /\ accepted_brace p idx line i = true
      /\ forall k, (j <= k < i)%nat -> accepted_brace p idx line k = false
  | NotFound => forall k, (j <= k)%nat -> accepted_brace p idx line k = false
  end.
Proof.
  revert j. induction rest as [|c rest IH]; intros j Hj.
  - simpl. intros k Hk. unfold accepted_brace.
    rewrite lookup_ge_None_2; [done|].
    apply (f_equal length) in Hj. rewrite length_drop in Hj. simpl in Hj. lia.
  - pose proof (accepted_brace_cons p idx line j c rest Hj) as Hacc.
    assert (Hc : line !! j = Some c)
      by (rewrite <- (Nat.add_0_r j), <- lookup_drop, Hj; done).
    assert (Hnext : drop (S j) line = rest).
    { replace (S j) with (j + 1)%nat by lia.
      by rewrite <- drop_drop, Hj. }
    specialize (IH (S j) Hnext). cbn [scan_from].
    destruct ((c =? open_brace)%N && _) eqn:O.
    + apply andb_true_iff in O as [Hc'%N.eqb_eq _]. subst c.
      split; [done|]. split; [done|]. intros k Hk. lia.
    + destruct ((c =? close_brace)%N && _) eqn:C.
      * apply andb_true_iff in C as [Hc'%N.eqb_eq _]. subst c.
        split; [done|]. split; [by rewrite Hacc, orb_true_r|].
        intros k Hk. lia.
      * simpl in Hacc.
        destruct (scan_from line idx p (S j) rest) as [i|i|];
          [destruct IH as (H1 & H2 & H3); split; [done|]; split; [done|]
          |destruct IH as (H1 & H2 & H3); split; [done|]; split; [done|]
          |];
          intros k Hk; (destruct (decide (k = j)) as [->|Hne];
                        [exact Hacc | (apply H3 || apply IH); lia]).
Qed.

(** X4: the scan of a line returns the leftmost brace that its
    classifier accepts, open or close as the character there is, and
    finds nothing exactly when no brace of the line is accepted. *)
Theorem scan_stops_at_first_accepted_brace (protected : gset (nat * nat))
    (line_idx : nat) (line : list N) :
  match scan line line_idx protected with
  | FoundOpen i =>
      line !! i = Some open_brace
      /\ accepted_brace protected line_idx line i = true
      /\ forall k, (k < i)%nat -> accepted_brace protected line_idx line k = false
  | FoundClose i =>
      line !! i = Some close_brace
      /\ accepted_brace protected line_idx line i = true
      /\ forall k, (k < i)%nat -> accepted_brace protected line_idx line k = false
  | NotFound => forall k, accepted_brace protected line_idx line k = false
  end.
Proof.
  pose proof (scan_from_first protected line_idx line 0 line eq_refl) as H.
  unfold scan. destruct (scan_from _ _ _ _ _) as [i|i|].
  - destruct H as (H1 & H2 & H3). repeat split; [done..|]. intros k Hk.
    apply H3. lia.
  - destruct H as (H1 & H2 & H3). repeat split; [done..|]. intros k Hk.
    apply H3. lia.
  - intros k. apply H. lia.
Qed.

(** X7: an unprotected closing brace alone on its line, white space
    around it and a comment or nothing behind it, is found by the scan;
    the depth drops by one, not below 0, and the line emits its comment at
    the new depth or nothing at all. *)
Theorem close_brace_line_vanishes (protected : gset (nat * nat))
    (output_lines : list (list N)) (indent_level : Z) (line_idx : nat)
    (ws ws' comment : list N) :
  blank ws = true -> blank ws' = true -> comment_or_nothing comment = true ->
  (line_idx, length ws) ∉ protected ->
  let line := ws ++ [close_brace] ++ ws' ++ comment in
  let depth := Z.max 0 (indent_level - 1) in
  scan line line_idx protected = FoundClose (length ws)
  /\ process_line protected (output_lines, indent_level) (line_idx, line)
     = (if truthy comment
        then output_lines ++ [mul indent_unit depth ++ comment]
        else output_lines, depth).
Proof.
  intros Hws Hws' Hc Hp line depth. split.
  - by apply close_brace_line_scan.
  - by apply close_brace_line_step.
Qed.

(** X5: a header without braces that ends in a colon, then an unprotected
    opening brace, then a comment or nothing: the scan finds the brace,
    the line emits the header up to its colon (with two spaces and the
    comment, if any), and the depth grows by one. *)
Theorem colon_brace_line_emits_header (protected : gset (nat * nat))
    (output_lines : list (list N)) (indent_level : Z) (line_idx : nat)
    (header ws ws' comment : list N) :
  no_brace header = true ->
  blank ws = true -> blank ws' = true -> comment_or_nothing comment = true ->
  (line_idx, length (header ++ [colon] ++ ws)) ∉ protected ->
  let line := (header ++ [colon] ++ ws) ++ [open_brace] ++ ws' ++ comment in
  scan line line_idx protected = FoundOpen (length (header ++ [colon] ++ ws))
  /\ process_line protected (output_lines, indent_level) (line_idx, line)
     = (output_lines
          ++ [header ++ [colon]
              ++ (if truthy comment then py "  " ++ comment else [])],
        indent_level + 1).
Proof.
  intros Hh Hws Hws' Hc Hp line. split.
  - by apply colon_brace_line_scan.
  - by apply colon_brace_line_step.
Qed.

(** ** Braces that are never scoping *)

Lemma find_None (c : N) (s : list N) :
  find c s = None <-> Forall (fun x => x <> c) s.
Proof.
  induction s as [|x s IH]; simpl.
  - split; [constructor | done].
  - destruct (N.eqb_spec x c) as [->|Hne].
    + split; [done | by intros [? _]%Forall_cons].
    + destruct (find c s); simpl.
      * split; [done|]. intros [_ H]%Forall_cons. by apply IH in H.
      * split; [|done]. intros _. apply Forall_cons. split; [done | by apply IH].
Qed.

Lemma rfind_prefix_None (c : N) (s : list N) (pos : nat) :
  find c s = None -> rfind c (take pos s) = None.
Proof.
  intros H%find_None. unfold rfind.
  assert (find c (rev (take pos s)) = None) as ->; [|done].
  apply find_None, Forall_rev, Forall_take, H.
Qed.

Lemma startswith_whole (s : list N) (c : N) :
  startswith s [c] = false -> bool_decide (s = [c]) = false.
Proof.
  intros H. apply bool_decide_eq_false_2. intros ->.
  simpl in H. by rewrite N.eqb_refl in H.
Qed.

Lemma scan_from_rejected (p : gset (nat * nat)) (idx : nat) (line : list N)
    (j : nat) (rest : list N) :
  (forall pos, is_scoping_open_brace line pos idx p = false) ->
  (forall pos, is_scoping_close_brace line pos idx p = false) ->
  scan_from line idx p j rest = NotFound.
Proof.
  intros Ho Hc. revert j. induction rest as [|c rest IH]; intros j; [done|].
  simpl. by rewrite Ho, Hc, !andb_false_r.
Qed.

(** X8: on a line that holds no colon and starts, white space apart, with
    neither brace, no brace is scoping for either classifier, protected or
    not; the line is emitted as a regular line. *)
Theorem brace_inside_a_statement_is_left_alone (protected : gset (nat * nat))
    (output_lines : list (list N)) (indent_level : Z) (line_idx : nat)
    (line : list N) :
  find colon line = None ->
  startswith (strip line) [open_brace] = false ->
  startswith (strip line) [close_brace] = false ->
  (forall pos, is_scoping_open_brace line pos line_idx protected = false)
  /\ (forall pos, is_scoping_close_brace line pos line_idx protected = false)
  /\ process_line protected (output_lines, indent_level) (line_idx, line)
     = (output_lines ++ [reindent indent_level line], indent_level).
Proof.
  intros Hcolon Hopen Hclose.
  assert (Ho : forall pos,
             is_scoping_open_brace line pos line_idx protected = false).
  { intros pos. unfold is_scoping_open_brace.
    destruct (bool_decide _); [done|].
    by rewrite rfind_prefix_None, startswith_whole, Hopen. }
  assert (Hc : forall pos,
             is_scoping_close_brace line pos line_idx protected = false).
  { intros pos. unfold is_scoping_close_brace.
    destruct (bool_decide _); [done|].
    by rewrite startswith_whole, Hclose. }
  split; [exact Ho|]. split; [exact Hc|].
  unfold process_line, scan, reindent.
  rewrite scan_from_rejected by done.
  by destruct (truthy (lstrip line)).
Qed.

(** ** The post-pass on its own *)

Lemma foldl_collapse_fixed (l acc : list (list N)) :
  blank_pair (acc ++ l) = false -> foldl collapse_step acc l = acc ++ l.
Proof.
  revert acc. induction l as [|x l IH]; intros acc H; simpl.
  - by rewrite app_nil_r.
  - assert (Hx : blank_pair (acc ++ [x]) = false).
    { apply (blank_pair_prefix _ l). by rewrite <- app_assoc. }
    assert (Hstep : collapse_step acc x = acc ++ [x]).
    { unfold collapse_step. rewrite blank_pair_snoc in Hx.
      apply orb_false_elim in Hx as [_ Hx].
      destruct (bool_decide (last acc = Some [])); [|by rewrite andb_false_r].
      destruct x; [done|]. by rewrite bool_decide_eq_false_2. }
    rewrite Hstep, IH; rewrite <- app_assoc; done.
Qed.

(** X11: the post-pass returns lines that hold no two neighbouring empty
    lines as they are. *)
Theorem collapse_keeps_collapsed_lines (ls : list (list N)) :
  blank_pair ls = false -> collapse ls = ls.
Proof. intros H. by apply (foldl_collapse_fixed ls []). Qed.

Lemma foldl_collapse_nonblank (l acc : list (list N)) :
  nonblank_lines (foldl collapse_step acc l)
  = nonblank_lines acc ++ nonblank_lines l
  /\ (length (foldl collapse_step acc l) <= length acc + length l)%nat.
Proof.
  revert acc. induction l as [|x l IH]; intros acc; simpl.
  - rewrite app_nil_r. split; [done | lia].
  - destruct (IH (collapse_step acc x)) as [-> Hlen].
    unfold collapse_step in *.
    destruct (bool_decide (x = []) && _ && _) eqn:E.
    + apply andb_true_iff in E as [[->%bool_decide_eq_true _]%andb_true_iff _].
      split; [done | lia].
    + rewrite length_app in Hlen. simpl in Hlen. split; [|lia].
      unfold nonblank_lines. rewrite List.filter_app. simpl.
      rewrite <- app_assoc. by destruct (truthy x).
Qed.

(** X12: the post-pass keeps every line that is not empty, in order, never
    makes the list longer, and running it twice is running it once. *)
Theorem collapse_only_drops_blank_lines (ls : list (list N)) :
  nonblank_lines (collapse ls) = nonblank_lines ls
  /\ (length (collapse ls) <= length ls)%nat
  /\ collapse (collapse ls) = collapse ls.
Proof.
  destruct (foldl_collapse_nonblank ls []) as [H1 H2].
  split; [exact H1|]. split; [exact H2|].
  apply (foldl_collapse_fixed _ []), collapse_blank_pair.
Qed.

(** ** The conversion as a whole *)

Lemma convert_lines_cleaned (protected : gset (nat * nat)) (code : list N) :
  convert_lines protected code
  = join [LF] (cleaned_lines_of protected code)
    ++ (if endswith code [LF] then [LF] else []).
Proof.
  unfold convert_lines, cleaned_lines_of, output_lines_of, collapse.
  destruct (foldl _ _ _) as [out d]. simpl.
  destruct (endswith code [LF]); [done | by rewrite app_nil_r].
Qed.

Lemma cleaned_lines_emitted (protected : gset (nat * nat)) (code : list N) :
  Forall emitted_ok (cleaned_lines_of protected code).
Proof.
  apply collapse_Forall. unfold output_lines_of, enumerate.
  by apply main_loop_invariant; [apply splitlines_no_linebreak | |].
Qed.

Lemma splitlines_convert_lines (protected : gset (nat * nat)) (code : list N) :
  splitlines (convert_lines protected code)
  = if endswith code [LF]
    then match cleaned_lines_of protected code with
         | [] => [[]]
         | _ => cleaned_lines_of protected code
         end
    else match last (cleaned_lines_of protected code) with
         | Some [] => removelast (cleaned_lines_of protected code)
         | _ => cleaned_lines_of protected code
         end.
Proof.
  rewrite convert_lines_cleaned.
  assert (H : Forall no_linebreak (cleaned_lines_of protected code)).
  { eapply Forall_impl; [apply cleaned_lines_emitted | by intros ? []]. }
  destruct (endswith code [LF]).
  - by apply splitlines_join_LF.
  - rewrite app_nil_r. by apply splitlines_join.
Qed.

Lemma process_line_adds_at_most_one (p : gset (nat * nat))
    (st : list (list N) * Z) (item : nat * list N) :
  (length (process_line p st item).1 <= length st.1 + 1)%nat.
Proof.
  destruct st as [out d], item as [idx line]. unfold process_line.
  destruct (scan line idx p) as [i|i|]; simpl;
    repeat (destruct (truthy _); simpl); rewrite ?length_app; simpl; lia.
Qed.

Lemma main_loop_length (p : gset (nat * nat)) (items : list (nat * list N))
    (st : list (list N) * Z) :
  (length (foldl (process_line p) st items).1 <= length st.1 + length items)%nat.
Proof.
  revert st. induction items as [|item items IH]; intros st; simpl; [lia|].
  specialize (IH (process_line p st item)).
  pose proof (process_line_adds_at_most_one p st item). lia.
Qed.

Lemma length_enumerate_from {A} (n : nat) (l : list A) :
  length (enumerate_from n l) = length l.
Proof. revert n. induction l as [|x l IH]; intros n; simpl; [done|]. by rewrite IH. Qed.

Lemma cleaned_lines_length (p : gset (nat * nat)) (code : list N) :
  (length (cleaned_lines_of p code) <= length (splitlines code))%nat.
Proof.
  unfold cleaned_lines_of.
  destruct (foldl_collapse_nonblank (output_lines_of p code) []) as [_ H].
  unfold collapse. simpl in H.
  pose proof (main_loop_length p (enumerate (splitlines code)) ([], 0)) as H'.
  unfold enumerate in H'. rewrite length_enumerate_from in H'.
  unfold output_lines_of, enumerate in *. simpl in H'. lia.
Qed.

Lemma splitlines_nonempty (s : list N) : s <> [] -> splitlines s <> [].
Proof.
  destruct s as [|c s]; [done|]. intros _. simpl.
  destruct (is_linebreak c).
  - destruct s; [done|]. by destruct (_ && _).
  - by destruct (splitlines s).
Qed.

Lemma length_removelast_le {A} (l : list A) :
  (length (removelast l) <= length l)%nat.
Proof.
  induction l as [|x l IH]; [done|]. simpl. destruct l; simpl in *; lia.
Qed.

Section Whole.

Variable generate_tokens : list N -> token_run.

(** X13: the converted text never has more lines than the input. *)
Theorem convert_never_adds_lines (code out : list N) :
  convert_curly_to_indented generate_tokens code = Ok out ->
  (length (splitlines out) <= length (splitlines code))%nat.
Proof.
  intros Hout. destruct (trivial code) eqn:T.
  - rewrite (convert_trivial _ code T) in Hout. by injection Hout as <-.
  - destruct (convert_Ok_inv _ code out T Hout) as (p & _ & ->).
    rewrite splitlines_convert_lines.
    pose proof (cleaned_lines_length p code) as Hlen.
    destruct (endswith code [LF]) eqn:E.
    + destruct (cleaned_lines_of p code) eqn:C; [|done]. simpl.
      assert (splitlines code <> [])
        by (apply splitlines_nonempty; by intros ->).
      destruct (splitlines code); [done | simpl; lia].
    + destruct (last _) as [[|]|]; [|done..].
      pose proof (length_removelast_le (cleaned_lines_of p code)). lia.
Qed.

(** X15: the conversion raises [e] exactly when the input is not trivial
    and the tokenizer raises [e], an exception other than [TokenError] and
    [ValueError]; trivial input never reaches the tokenizer. *)
Theorem convert_raises_exactly (code : list N) (e : exception) :
  convert_curly_to_indented generate_tokens code = Raise e
  <-> trivial code = false
      /\ raised (generate_tokens code) = Some e
      /\ handled e = false.
Proof.
  split.
  - unfold convert_curly_to_indented, get_protected_positions, trivial.
    destruct (negb (truthy (strip code))); [done|].
    destruct (raised (generate_tokens code)) as [e'|]; [|done].
    destruct (handled e') eqn:H; [done|]. by intros [= <-].
  - intros (H1 & H2 & H3). by apply convert_raises.
Qed.

End Whole.

(** X16: two tokenizer runs whose protected sets agree at the coordinates
    of the braces of the text give the same conversion: protection is
    read at braces only. *)
Theorem convert_reads_protection_at_braces_only
    (tokens1 tokens2 : list N -> token_run) (code : list N)
    (p1 p2 : gset (nat * nat)) :
  get_protected_positions tokens1 code = Ok p1 ->
  get_protected_positions tokens2 code = Ok p2 ->
  Forall (agree p1 p2) (brace_positions (splitlines code)) ->
  convert_curly_to_indented tokens1 code
  = convert_curly_to_indented tokens2 code.
Proof.
  intros H1 H2 H. unfold convert_curly_to_indented. rewrite H1, H2.
  destruct (negb (truthy (strip code))); [done|].
  by rewrite (convert_lines_agree p1 p2 code H).
Qed.

(** ** A block, from its header to its closing brace *)

Lemma scan_no_brace (p : gset (nat * nat)) (idx : nat) (line : list N) :
  no_brace line = true -> scan line idx p = NotFound.
Proof.
  intros H. unfold scan. rewrite <- (app_nil_r line) at 2.
  by rewrite scan_from_skip.
Qed.

Lemma body_lines_step (p : gset (nat * nat)) (body : list (list N))
    (n : nat) (out : list (list N)) (d : Z) :
  Forall (fun b => no_brace b = true) body ->
  foldl (process_line p) (out, d) (enumerate_from n body)
  = (out ++ (reindent d <$> body), d).
Proof.
  intros H. revert n out.
  induction H as [|b body Hb Hbody IH]; intros n out;
    cbn [enumerate_from foldl fmap list_fmap].
  - by rewrite app_nil_r.
  - assert (Hstep : process_line p (out, d) (n, b) = (out ++ [reindent d b], d)).
    { unfold process_line, reindent. rewrite scan_no_brace by done.
      by destruct (truthy (lstrip b)). }
    rewrite Hstep, IH. by rewrite <- app_assoc.
Qed.

Lemma enumerate_from_app {A} (n : nat) (a b : list A) :
  enumerate_from n (a ++ b)
  = enumerate_from n a ++ enumerate_from (n + length a) b.
Proof.
  revert n. induction a as [|x a IH]; intros n; simpl.
  - by rewrite Nat.add_0_r.
  - rewrite IH. do 3 f_equal. lia.
Qed.

(** X10: a header ending in [: {], body lines that hold no brace and a
    line with the closing brace alone, both braces unprotected: the loop
    emits the header up to its colon and each body line re-indented one
    level deeper (blank ones as empty lines), emits nothing for the
    closing line, and is back at the depth it started from. *)
Theorem block_is_indented_one_level (protected : gset (nat * nat))
    (output_lines : list (list N)) (indent_level : Z) (n : nat)
    (header ws ws' ws1 ws1' : list N) (body : list (list N)) :
  0 <= indent_level ->
  no_brace header = true -> Forall (fun b => no_brace b = true) body ->
  blank ws = true -> blank ws' = true ->
  blank ws1 = true -> blank ws1' = true ->
  (n, length (header ++ [colon] ++ ws)) ∉ protected ->
  ((n + 1 + length body)%nat, length ws1) ∉ protected ->
  foldl (process_line protected) (output_lines, indent_level)
    (enumerate_from n
       ([(header ++ [colon] ++ ws) ++ [open_brace] ++ ws']
        ++ body ++ [ws1 ++ [close_brace] ++ ws1']))
  = (output_lines ++ [header ++ [colon]]
       ++ (reindent (indent_level + 1) <$> body),
     indent_level).
Proof.
  intros Hd Hh Hbody Hws Hws' Hws1 Hws1' Hopen Hclose.
  rewrite enumerate_from_app, foldl_app. cbn [enumerate_from foldl length].
  pose proof (colon_brace_line_step protected output_lines indent_level n
                header ws ws' [] Hh Hws Hws' eq_refl Hopen) as Hfirst.
  rewrite !app_nil_r in Hfirst. rewrite Hfirst.
  rewrite enumerate_from_app, foldl_app, body_lines_step by done.
  cbn [enumerate_from foldl].
  pose proof (close_brace_line_step protected
                ((output_lines ++ [header ++ [colon]])
                   ++ (reindent (indent_level + 1) <$> body))
                (indent_level + 1) (n + 1 + length body) ws1 ws1' []
                Hws1 Hws1' eq_refl Hclose) as Hlast.
  rewrite !app_nil_r in Hlast. rewrite Hlast. cbn [truthy].
  rewrite <- app_assoc. f_equal. lia.
Qed.

(** ** The driver *)

Section DriverFacts.

Variable generate_tokens : list N -> token_run.
Variable text_of : failure -> list N.

(** X17: when [curlied.py] is read, is not trivial, and the tokenizer
    raises an exception that the protector does not handle, [main] writes
    nothing, prints the failure on the error stream and raises that
    exception again. *)
Theorem main_reraises_tokenizer_failure (World : Type)
    (read_text : string -> World -> io_exception + list N)
    (write_text : string -> list N -> World -> World * option io_exception)
    (w : World) (c : console) (original_code : list N) (e : exception) :
  read_text "curlied.py" w = inr original_code ->
  trivial original_code = false ->
  raised (generate_tokens original_code) = Some e ->
  handled e = false ->
  main generate_tokens World read_text write_text text_of w c
  = (w, print_err c (failed_message text_of (FromConversion e)),
     Some (FromConversion e)).
Proof.
  intros Hread Hcode Hraised Hhandled. unfold main. rewrite Hread.
  by rewrite (convert_raises generate_tokens original_code e).
Qed.

End DriverFacts.

(** ** The further properties at concrete inputs *)

Lemma unprotected_everywhere (q : nat * nat) : q ∉ (∅ : gset (nat * nat)).
Proof. apply not_elem_of_empty. Qed.

(** X1, at the comment of scenario 2. *)
Lemma scenario2_comment_is_protected :
  get_protected_positions (tokenizer_of scenario2_run) scenario2
  = Ok scenario2_positions
  /\ ((2%nat, 2%nat) ∈ scenario2_positions
      <-> exists t, t ∈ yielded (tokenizer_of scenario2_run scenario2)
                    /\ protects (splitlines_keepends scenario2) t 2 2 = true).
Proof.
  split; [reflexivity|].
  exact (protected_iff_inside_a_token (tokenizer_of scenario2_run) scenario2
           scenario2_positions 2 2 eq_refl).
Defined.

(** X7, at an indented closing brace with a comment, met at depth 2. *)
Lemma indented_close_brace_with_comment :
  comment_or_nothing (py "# end") = true
  /\ scan (py "  } # end") 3 ∅ = FoundClose 2
  /\ process_line ∅ ([], 2) (3%nat, py "  } # end") = ([py "    # end"], 1).
Proof.
  split; [reflexivity|].
  exact (close_brace_line_vanishes ∅ [] 2 3 (py "  ") (py " ") (py "# end")
           eq_refl eq_refl eq_refl (unprotected_everywhere _)).
Defined.

(** X6, at an opening brace on a line of its own. *)
Lemma lone_open_brace :
  blank (py "  ") = true
  /\ process_line ∅ ([py "if x:"], 0) (1%nat, py "  {") = ([py "if x:"], 1).
Proof.
  split; [reflexivity|].
  exact (open_brace_line_only_deepens ∅ [py "if x:"] 0 1 (py "  ") [] []
           eq_refl eq_refl eq_refl (unprotected_everywhere _)).
Defined.

(** X5, at an indented loop header with a comment behind the brace. *)
Lemma header_with_comment :
  no_brace (py "  while x") = true
  /\ scan (py "  while x: {  # loop") 0 ∅ = FoundOpen 11
  /\ process_line ∅ ([], 1) (0%nat, py "  while x: {  # loop")
     = ([py "  while x:  # loop"], 2).
Proof.
  split; [reflexivity|].
  exact (colon_brace_line_emits_header ∅ [] 1 0 (py "  while x") (py " ")
           (py "  ") (py "# loop") eq_refl eq_refl eq_refl eq_refl
           (unprotected_everywhere _)).
Defined.

(** X9, at a line whose braces are a set literal. *)
Lemma body_line_at_depth_two :
  scan (py " y = {1}") 4 ∅ = NotFound
  /\ exists emitted,
       process_line ∅ ([], 2) (4%nat, py " y = {1}") = ([emitted], 2)
       /\ leading_space emitted = py "        "
       /\ lstrip emitted = py "y = {1}".
Proof.
  assert (H : scan (py " y = {1}") 4 ∅ = NotFound) by (vm_compute; reflexivity).
  split; [exact H|].
  exact (regular_line_is_reindented ∅ [] 2 4 (py " y = {1}") H eq_refl).
Defined.

(** X11, at three lines with one blank line between. *)
Lemma collapsed_lines_stay :
  blank_pair [py "a"; []; py "b"] = false
  /\ collapse [py "a"; []; py "b"] = [py "a"; []; py "b"].
Proof.
  split; [reflexivity|].
  exact (collapse_keeps_collapsed_lines [py "a"; []; py "b"] eq_refl).
Defined.

(** X13, at three blank lines in a row. *)
Lemma blank_run_gets_shorter :
  convert_curly_to_indented (tokenizer_of blank_run_run) blank_run_input
  = Ok blank_run_output
  /\ (length (splitlines blank_run_output)
      <= length (splitlines blank_run_input))%nat.
Proof.
  assert (H : convert_curly_to_indented (tokenizer_of blank_run_run)
                blank_run_input = Ok blank_run_output)
    by (vm_compute; reflexivity).
  split; [exact H|].
  exact (convert_never_adds_lines (tokenizer_of blank_run_run)
           blank_run_input blank_run_output H).
Defined.

(** X16, at scenario 2 with and without its comment token. *)
Lemma scenario2_without_its_comment_token :
  Forall (agree scenario2_positions ∅) (brace_positions (splitlines scenario2))
  /\ convert_curly_to_indented (tokenizer_of scenario2_run) scenario2
     = convert_curly_to_indented (tokenizer_of (mkRun [] None)) scenario2.
Proof.
  assert (H : Forall (agree scenario2_positions ∅)
                (brace_positions (splitlines scenario2))).
  { apply Forall_forall. intros q Hq.
    apply (bool_decide_unpack _).
    revert q Hq. apply Forall_forall.
    apply (bool_decide_unpack _). vm_compute. exact I. }
  split; [exact H|].
  exact (convert_reads_protection_at_braces_only (tokenizer_of scenario2_run)
           (tokenizer_of (mkRun [] None)) scenario2 scenario2_positions ∅
           eq_refl eq_refl H).
Defined.

(** X14, at scenario 2. *)
Lemma scenario2_keeps_its_final_newline :
  endswith scenario2 [LF] = true /\ endswith scenario2_actual [LF] = true.
Proof.
  assert (H1 : endswith scenario2 [LF] = true) by reflexivity.
  assert (H2 : convert_curly_to_indented (tokenizer_of scenario2_run)
                 scenario2 = Ok scenario2_actual)
    by (vm_compute; reflexivity).
  split; [exact H1|].
  exact (final_newline_is_kept (tokenizer_of scenario2_run) scenario2
           scenario2_actual H1 H2).
Defined.

(** X10, at the block of scenario 1. *)
Lemma scenario1_block :
  no_brace (py "if x") = true
  /\ foldl (process_line ∅) ([], 0)
       (enumerate [py "if x: {"; py "    y()"; py "}"])
     = ([py "if x:"; py "    y()"], 0).
Proof.
  assert (Hbody : Forall (fun b => no_brace b = true) [py "    y()"])
    by (repeat constructor).
  split; [reflexivity|].
  exact (block_is_indented_one_level ∅ [] 0 0 (py "if x") (py " ") [] [] []
           [py "    y()"] (Z.le_refl 0) eq_refl Hbody
           eq_refl eq_refl eq_refl eq_refl
           (unprotected_everywhere _) (unprotected_everywhere _)).
Defined.

(** X17, in a world where reading [curlied.py] delivers a text whose
    dedent matches no block. *)
Lemma bad_dedent_file_is_not_converted :
  main (tokenizer_of bad_dedent_run) unit
    (fun _ _ => inr bad_dedent_input) (fun _ _ w => (w, None)) no_text
    tt (mkConsole [] [])
  = (tt,
     mkConsole [] [failed_message no_text (FromConversion IndentationError)],
     Some (FromConversion IndentationError)).
Proof.
  exact (main_reraises_tokenizer_failure (tokenizer_of bad_dedent_run) no_text
           unit (fun _ _ => inr bad_dedent_input) (fun _ _ w => (w, None))
           tt (mkConsole [] []) bad_dedent_input IndentationError
           eq_refl eq_refl eq_refl eq_refl).
Defined.

(** X8, at an assignment of a set literal. *)
Lemma set_literal_is_left_alone :
  find colon (py "    s = {1, 2}") = None
  /\ process_line ∅ ([], 1) (5%nat, py "    s = {1, 2}")
     = ([py "    s = {1, 2}"], 1).
Proof.
  assert (H : find colon (py "    s = {1, 2}") = None) by reflexivity.
  split; [exact H|].
  exact (proj2 (proj2 (brace_inside_a_statement_is_left_alone ∅ [] 1 5
                         (py "    s = {1, 2}") H eq_refl eq_refl))).
Defined.
